(** * nemo.lightning.io.pl : the Megatron distributed-checkpoint store

    A shallow embedding of [src/nemo/lightning/io/pl.py]:
    [ckpt_to_dir], [is_distributed_ckpt], [_fix_tensors_device] and the
    three operations of [MegatronCheckpointIO].

    The module calls into collaborators that are not part of the
    repository.  [pathlib] is modelled by the definitions of CPython's
    [pathlib.py] (3.8 to 3.11) for the POSIX flavour.  The [fsspec]
    filesystem is a finite map from paths to files and directories, with
    [makedirs] and [rm] as the local filesystem does them; the process has a
    working directory, which [rm] refuses to delete.
    [megatron.core.dist_checkpointing] is a record of arbitrary functions,
    so every theorem holds for every backend.  [torch.cuda] is two flags and
    the index of the current device.  Logging is left out, and so is
    [TrainerContext], which only packages a trainer and its model for the
    IO mixin. *)

From Stdlib Require Import String Ascii ZArith Lia.
From stdpp Require Import base option list gmap strings fin_maps.

Local Open Scope Z_scope.

(** ** Exceptions and fallible values *)

(** Python exception classes raised by the module or by its collaborators,
    each with its message. *)
Inductive exn :=
| TypeError (msg : string)
| ValueError (msg : string)
| AssertionError (msg : string)
| FileNotFoundError (msg : string)
| FileExistsError (msg : string)
| NotADirectoryError (msg : string)
| BackendError (msg : string).

Inductive result (A : Type) :=
| OK (a : A)
| Error (e : exn).
Arguments OK {A} a.
Arguments Error {A} e.

(** Sequencing of fallible computations, read in program order:
    [let* x := m in k] goes on with [k] unless [m] raises. *)
Definition result_then {A B} (m : result A) (k : A → result B) : result B :=
  match m with
  | OK a => k a
  | Error e => Error e
  end.

Declare Scope result_scope.
Delimit Scope result_scope with result.
Bind Scope result_scope with result.
Notation "'let*' x ':=' m 'in' k" := (result_then m (λ x, k))
  (at level 10, x name, m at level 100, k at level 200, only parsing)
  : result_scope.

(** ** Python [str] methods used by [pathlib] *)

Module Str.

Definition len (s : string) : Z := Z.of_nat (String.length s).

Definition nonempty (s : string) : bool :=
  match s with
  | EmptyString => false
  | String _ _ => true
  end.

(** [s.rfind(c)]: the highest index of [c] in [s], or [-1]. *)
Fixpoint rfind (c : ascii) (s : string) : Z :=
  match s with
  | EmptyString => -1
  | String a s' =>
      let r := rfind c s' in
      if 0 <=? r then r + 1 else if Ascii.eqb a c then 0 else -1
  end.

(** [c in s] *)
Fixpoint contains (c : ascii) (s : string) : bool :=
  match s with
  | EmptyString => false
  | String a s' => Ascii.eqb a c || contains c s'
  end.

Fixpoint take (n : nat) (s : string) : string :=
  match n, s with
  | S n', String a s' => String a (take n' s')
  | _, _ => EmptyString
  end.

Fixpoint drop (n : nat) (s : string) : string :=
  match n, s with
  | S n', String _ s' => drop n' s'
  | _, _ => s
  end.

(** A slice bound [i] as Python resolves it: negative bounds count from the
    end, and the result is clamped to [0 .. len s]. *)
Definition bound (s : string) (i : Z) : nat :=
  Z.to_nat (Z.min (len s) (Z.max 0 (if i <? 0 then len s + i else i))).

(** [s[i:]] and [s[:i]] *)
Definition slice_from (s : string) (i : Z) : string := drop (bound s i) s.
Definition slice_to (s : string) (i : Z) : string := take (bound s i) s.

(** [s.startswith(c)] for a one-character prefix *)
Definition startswith (c : ascii) (s : string) : bool :=
  match s with
  | String a _ => Ascii.eqb a c
  | EmptyString => false
  end.

(** [s[-1]] when [s] is not empty *)
Fixpoint last (s : string) : option ascii :=
  match s with
  | EmptyString => None
  | String a EmptyString => Some a
  | String _ s' => last s'
  end.

(** [s.lstrip(c)] *)
Fixpoint lstrip (c : ascii) (s : string) : string :=
  match s with
  | String a s' => if Ascii.eqb a c then lstrip c s' else s
  | EmptyString => EmptyString
  end.

(** [s.split(c)]: the pieces between occurrences of [c], empty ones kept. *)
Fixpoint split (c : ascii) (s : string) : list string :=
  match s with
  | EmptyString => [EmptyString]
  | String a s' =>
      if Ascii.eqb a c then EmptyString :: split c s'
      else match split c s' with
           | x :: xs => String a x :: xs
           | [] => [String a EmptyString]
           end
  end.

(** [c.join(l)] *)
Fixpoint join (c : ascii) (l : list string) : string :=
  match l with
  | [] => EmptyString
  | [x] => x
  | x :: xs => x +:+ String c (join c xs)
  end.

End Str.

(** ** [pathlib.PurePosixPath] *)

Module pathlib.

Definition sep : ascii := "/"%char.
Definition dot : ascii := "."%char.

(** A parsed path: [_root] is [""], ["/"] or ["//"]; [_parts] holds the root
    (when there is one) followed by the components.  The drive of the POSIX
    flavour is always empty and is left out. *)
Record PurePath := mkPath { _root : string; _parts : list string }.

#[global] Instance PurePath_eq_dec : EqDecision PurePath.
Proof. solve_decision. Defined.

#[global] Instance PurePath_countable : Countable PurePath.
Proof.
  refine (inj_countable' (λ p, (_root p, _parts p))
                         (λ rp, mkPath rp.1 rp.2) _).
  by intros [].
Defined.

(** [_PosixFlavour.splitroot] *)
Definition splitroot (part : string) : string * string :=
  if Str.startswith sep part then
    let stripped_part := Str.lstrip sep part in
    if Str.len part - Str.len stripped_part =? 2
    then ("//", stripped_part)
    else ("/", stripped_part)
  else ("", part).

(** A component kept by the parser: [x and x != '.'] *)
Definition kept (x : string) : bool :=
  Str.nonempty x && negb (String.eqb x ".").

(** [_Flavour.parse_parts] on one string argument *)
Definition parse_parts (part : string) : string * list string :=
  if negb (Str.nonempty part) then ("", [])
  else
    let '(root, rel) := splitroot part in
    let parsed :=
      if Str.contains sep rel then List.filter kept (Str.split sep rel)
      else if kept rel then [rel] else [] in
    (root, if Str.nonempty root then root :: parsed else parsed).

(** [Path(s)] for a string [s] *)
Definition Path (s : string) : PurePath :=
  let '(root, parts) := parse_parts s in mkPath root parts.

(** [PurePath.name] *)
Definition name (self : PurePath) : string :=
  let parts := _parts self in
  if (length parts =? (if Str.nonempty (_root self) then 1 else 0))%nat
  then ""
  else List.last parts "".

(** [PurePath.suffix] *)
Definition suffix (self : PurePath) : string :=
  let name := name self in
  let i := Str.rfind dot name in
  if (0 <? i) && (i <? Str.len name - 1)
  then Str.slice_from name i
  else "".

(** [PurePath.stem] *)
Definition stem (self : PurePath) : string :=
  let name := name self in
  let i := Str.rfind dot name in
  if (0 <? i) && (i <? Str.len name - 1)
  then Str.slice_to name i
  else name.

(** [str(path)] *)
Definition str (self : PurePath) : string :=
  let s :=
    if Str.nonempty (_root self)
    then _root self +:+ Str.join sep (tail (_parts self))
    else Str.join sep (_parts self) in
  if Str.nonempty s then s else ".".

(** [repr(path)] *)
Definition repr (self : PurePath) : string :=
  "PosixPath('" +:+ str self +:+ "')".

(** [self._parts[:-1] + [name]] *)
Definition replace_last (parts : list string) (name : string) : list string :=
  removelast parts ++ [name].

(** [PurePath.with_name] *)
Definition with_name (self : PurePath) (new_name : string) : result PurePath :=
  if negb (Str.nonempty (name self))
  then Error (ValueError (repr self +:+ " has an empty name"))
  else
    let '(root, parts) := parse_parts new_name in
    if negb (Str.nonempty new_name)
       || bool_decide (Str.last new_name = Some sep)
       || Str.nonempty root
       || negb (length parts =? 1)%nat
    then Error (ValueError ("Invalid name '" +:+ new_name +:+ "'"))
    else OK (mkPath (_root self) (replace_last (_parts self) new_name)).

(** [PurePath.with_suffix] *)
Definition with_suffix (self : PurePath) (suffix' : string) : result PurePath :=
  if Str.contains sep suffix'
  then Error (ValueError ("Invalid suffix '" +:+ suffix' +:+ "'"))
  else if Str.nonempty suffix' && negb (Str.startswith dot suffix')
          || String.eqb suffix' "."
  then Error (ValueError ("Invalid suffix '" +:+ suffix' +:+ "'"))
  else
    let name := name self in
    if negb (Str.nonempty name)
    then Error (ValueError (repr self +:+ " has an empty name"))
    else
      let old_suffix := suffix self in
      let name :=
        if negb (Str.nonempty old_suffix)
        then name +:+ suffix'
        else Str.slice_to name (- Str.len old_suffix) +:+ suffix' in
      OK (mkPath (_root self) (replace_last (_parts self) name)).

(** What the parser guarantees of every path it builds: the root is one of
    the three POSIX roots and every component is a non-empty name other than
    ["."] without a separator. *)
Definition component (x : string) : Prop :=
  kept x = true ∧ Str.contains sep x = false.

Definition root_part (root : string) : list string :=
  if Str.nonempty root then [root] else [].

Definition wf (p : PurePath) : Prop :=
  _root p ∈ [""; "/"; "//"]
  ∧ ∃ names, Forall component names ∧ _parts p = root_part (_root p) ++ names.

End pathlib.
Export pathlib.


(** ** Checkpoint payloads *)

(** [torch.device]: a device type with an optional index. *)
Record device := mkDevice { dev_type : string; dev_index : option Z }.

#[global] Instance device_eq_dec : EqDecision device.
Proof. solve_decision. Defined.

(** [torch.device("cuda", index=i)] *)
Definition cuda_device (i : Z) : device := mkDevice "cuda" (Some i).

(** A [torch.Tensor]: its contents, kept abstract, and where it lives. *)
Record Tensor := mkTensor { storage : list Z; tensor_device : device }.

#[global] Instance Tensor_eq_dec : EqDecision Tensor.
Proof. solve_decision. Defined.

(** [t.is_cuda] *)
Definition is_cuda (t : Tensor) : bool :=
  String.eqb (dev_type (tensor_device t)) "cuda".

(** [t.to(dev)]: a tensor with the same contents on [dev]. *)
Definition to (t : Tensor) (dev : device) : Tensor :=
  mkTensor (storage t) dev.

(** A Python object as a checkpoint holds it.  Dictionaries keep their
    insertion order; everything that is neither a [dict], a [list] nor a
    tensor (numbers, strings, tuples, [None], ...) is an opaque [Obj]. *)
#[local] Unset Elimination Schemes.
Inductive value :=
| VTensor (t : Tensor)
| Obj (o : string)
| VList (l : list value)
| VDict (d : list (string * value)).
#[local] Set Elimination Schemes.

(** [megatron.core.dist_checkpointing.dict_utils.dict_list_map_outplace]:
    <<
      if isinstance(x, dict): return {k: dict_list_map_outplace(f, v) for k, v in x.items()}
      elif isinstance(x, list): return [dict_list_map_outplace(f, v) for v in x]
      else: return f(x)
    >> *)
Fixpoint dict_list_map_outplace (f : value → value) (x : value) : value :=
  match x with
  | VDict d => VDict (List.map (λ kv, (kv.1, dict_list_map_outplace f kv.2)) d)
  | VList l => VList (List.map (dict_list_map_outplace f) l)
  | _ => f x
  end.

(** ** The collaborators' interface *)

(** [lightning_fabric.utilities.types._PATH = Union[str, Path]] *)
Inductive _PATH :=
| path_str (s : string)
| path_obj (p : PurePath).

(** [Path(filepath)]: a string is parsed, a path object is taken as it is. *)
Definition as_Path (filepath : _PATH) : PurePath :=
  match filepath with
  | path_str s => Path s
  | path_obj p => p
  end.

(** [str(path)] *)
Definition str_PATH (path : _PATH) : string :=
  match path with
  | path_str s => s
  | path_obj p => str p
  end.

(** The calls that leave the module: to the filesystem returned by
    [get_filesystem], to [megatron.core.dist_checkpointing] and to
    [torch.cuda]. *)
Inductive call :=
| fs_isdir (path : _PATH)
| fs_exists (path : _PATH)
| fs_makedirs (path : _PATH) (exist_ok : bool)
| fs_rm (path : _PATH) (recursive : bool)
| check_is_distributed_checkpoint (checkpoint_dir : PurePath)
| dist_checkpointing_save (checkpoint : value) (checkpoint_dir : string)
                          (sharded_strategy : string * Z)
| dist_checkpointing_load (sharded_state_dict : option value)
                          (checkpoint_dir : string)
| cuda_is_initialized
| cuda_is_available
| cuda_current_device.

(** What each call hands back. *)
Definition answer (c : call) : Type :=
  match c with
  | fs_isdir _ | fs_exists _ | check_is_distributed_checkpoint _
  | cuda_is_initialized | cuda_is_available => bool
  | fs_makedirs _ _ | fs_rm _ _ | dist_checkpointing_save _ _ _ => unit
  | dist_checkpointing_load _ _ => value
  | cuda_current_device => Z
  end.

(** A method body: it returns, raises, or calls a collaborator and goes on
    with the answer. *)
Inductive prog (A : Type) :=
| Ret (a : A)
| Raise (e : exn)
| Do (c : call) (k : answer c → prog A).
Arguments Ret {A} a.
Arguments Raise {A} e.
Arguments Do {A} c k.

(** [let* x := m in k] runs [m] and, unless it raises, goes on with [k];
    [m >> k] drops the result of [m]. *)
Fixpoint prog_then {A B} (m : prog A) (f : A → prog B) : prog B :=
  match m with
  | Ret a => f a
  | Raise e => Raise e
  | Do c k => Do c (λ x, prog_then (k x) f)
  end.

Declare Scope prog_scope.
Delimit Scope prog_scope with prog.
Bind Scope prog_scope with prog.
Notation "'let*' x ':=' m 'in' k" := (prog_then m (λ x, k))
  (at level 10, x name, m at level 100, k at level 200, only parsing)
  : prog_scope.
Notation "m >> k" := (prog_then m (λ _, k))
  (at level 100, k at level 200, only parsing) : prog_scope.

Definition perform (c : call) : prog (answer c) := Do c Ret.

(** A pure fallible computation inside a method body. *)
Definition lift {A} (r : result A) : prog A :=
  match r with
  | OK a => Ret a
  | Error e => Raise e
  end.

(** [assert cond, msg] *)
Definition assert (cond : bool) (msg : string) : prog unit :=
  if cond then Ret tt else Raise (AssertionError msg).

(** ** The world the module runs in *)

Inductive node := File | Dir.

#[global] Instance node_eq_dec : EqDecision node.
Proof. solve_decision. Defined.

(** The filesystem behind [get_filesystem]: a finite map from paths to what
    is stored there.  Paths are compared as [pathlib] compares them. *)
Module fsspec.

Definition exists_ (fs : gmap PurePath node) (p : PurePath) : bool :=
  bool_decide (is_Some (fs !! p)).

Definition isdir (fs : gmap PurePath node) (p : PurePath) : bool :=
  bool_decide (fs !! p = Some Dir).

(** [p] is [d] or lies below it. *)
Definition under (d p : PurePath) : Prop :=
  _root d = _root p ∧ _parts d `prefix_of` _parts p.

#[global] Instance under_dec d p : Decision (under d p).
Proof. unfold under. apply _. Defined.

(** The directories above [p], outermost first. *)
Definition ancestors (p : PurePath) : list PurePath :=
  (λ n, mkPath (_root p) (take n (_parts p))) <$> seq 1 (length (_parts p) - 1).

(** [fs.makedirs(p, exist_ok=...)], as [os.makedirs] does it. *)
Definition makedirs (fs : gmap PurePath node) (p : PurePath) (exist_ok : bool)
  : result (gmap PurePath node) :=
  match fs !! p with
  | Some Dir => if exist_ok then OK fs else Error (FileExistsError (str p))
  | Some File => Error (FileExistsError (str p))
  | None =>
      if existsb (λ a, bool_decide (fs !! a = Some File)) (ancestors p)
      then Error (NotADirectoryError (str p))
      else OK (foldr (λ a m, <[a := Dir]> m) fs (ancestors p ++ [p]))
  end.

(** The loop of [posixpath.normpath] over the components of a path that has
    no empty and no ["."] component: [new_comps] is kept last component
    first.
    <<
      if (comp != '..' or (not initial_slashes and not new_comps) or
            (new_comps and new_comps[-1] == '..')):
          new_comps.append(comp)
      elif new_comps:
          new_comps.pop()
    >> *)
Fixpoint normpath_comps (initial_slashes : bool) (new_comps : list string)
    (comps : list string) : list string :=
  match comps with
  | [] => rev new_comps
  | comp :: rest =>
      if negb (String.eqb comp "..")
         || (negb initial_slashes && bool_decide (new_comps = []))
         || bool_decide (head new_comps = Some "..")
      then normpath_comps initial_slashes (comp :: new_comps) rest
      else normpath_comps initial_slashes (tail new_comps) rest
  end.

(** The components of a path after its root. *)
Definition components_of (p : PurePath) : list string :=
  drop (length (root_part (_root p))) (_parts p).

(** [os.path.abspath(p)] in a process whose working directory is [cwd]: a
    relative path is joined to [cwd], then [..] is collapsed. *)
Definition abspath (cwd p : PurePath) : PurePath :=
  let root := if Str.nonempty (_root p) then _root p else _root cwd in
  let comps :=
    if Str.nonempty (_root p) then components_of p
    else components_of cwd ++ components_of p in
  mkPath root
    (root_part root ++ normpath_comps (Str.nonempty root) [] comps).

(** [osp.abspath(p) == os.getcwd()] *)
Definition is_cwd (cwd p : PurePath) : bool :=
  bool_decide (abspath cwd p = cwd).

(** [fs.rm(p, recursive=...)] in a process whose working directory is
    [cwd]: [shutil.rmtree] on a directory, which must not be the working
    directory, [os.remove] on anything else.
    <<
      if self.isdir(p):
          if not recursive:
              raise ValueError("Cannot delete directory, set recursive=True")
          if osp.abspath(p) == os.getcwd():
              raise ValueError("Cannot delete current working directory")
          shutil.rmtree(p)
      else:
          os.remove(p)
    >> *)
Definition rm (cwd : PurePath) (fs : gmap PurePath node) (p : PurePath)
    (recursive : bool) : result (gmap PurePath node) :=
  match fs !! p with
  | Some Dir =>
      if negb recursive
      then Error (ValueError "Cannot delete directory, set recursive=True")
      else if is_cwd cwd p
      then Error (ValueError "Cannot delete current working directory")
      else OK (filter (λ kv, ¬ under p kv.1) fs)
  | Some File => OK (delete p fs)
  | None => Error (FileNotFoundError (str p))
  end.

End fsspec.

(** [megatron.core.dist_checkpointing]: the validity probe and the sharded
    writer and reader.  Nothing is assumed of them: each may fail, and the
    writer and the reader may leave the filesystem in any state. *)
Record dist_checkpointing := {
  dc_check_is_distributed_checkpoint :
    gmap PurePath node → PurePath → result bool;
  dc_save :
    value → string → string * Z → gmap PurePath node
    → result unit * gmap PurePath node;
  dc_load :
    option value → string → gmap PurePath node
    → result value * gmap PurePath node }.

Record World := mkWorld {
  files : gmap PurePath node;
  cuda_initialized : bool;
  cuda_available : bool;
  current_device : Z;
  cwd : PurePath }.

Definition set_files (w : World) (fs : gmap PurePath node) : World :=
  mkWorld fs (cuda_initialized w) (cuda_available w) (current_device w)
    (cwd w).

(** The outcome of a filesystem update. *)
Definition commit (w : World) (r : result (gmap PurePath node))
  : result unit * World :=
  match r with
  | OK fs => (OK tt, set_files w fs)
  | Error e => (Error e, w)
  end.

(** How the world answers a call. *)
Definition handle (dc : dist_checkpointing) (c : call) (w : World)
  : result (answer c) * World :=
  match c as c' return result (answer c') * World with
  | fs_isdir path => (OK (fsspec.isdir (files w) (as_Path path)), w)
  | fs_exists path => (OK (fsspec.exists_ (files w) (as_Path path)), w)
  | fs_makedirs path exist_ok =>
      commit w (fsspec.makedirs (files w) (as_Path path) exist_ok)
  | fs_rm path recursive =>
      commit w (fsspec.rm (cwd w) (files w) (as_Path path) recursive)
  | check_is_distributed_checkpoint checkpoint_dir =>
      (dc_check_is_distributed_checkpoint dc (files w) checkpoint_dir, w)
  | dist_checkpointing_save checkpoint checkpoint_dir sharded_strategy =>
      let '(r, fs) := dc_save dc checkpoint checkpoint_dir sharded_strategy (files w) in
      (r, set_files w fs)
  | dist_checkpointing_load sharded_state_dict checkpoint_dir =>
      let '(r, fs) := dc_load dc sharded_state_dict checkpoint_dir (files w) in
      (r, set_files w fs)
  | cuda_is_initialized => (OK (cuda_initialized w), w)
  | cuda_is_available => (OK (cuda_available w), w)
  | cuda_current_device => (OK (current_device w), w)
  end.

(** What running a method body leaves behind: its result, the world after
    it, and the calls it made, in order. *)
Record outcome (A : Type) := mkOutcome {
  returned : result A;
  world : World;
  trace : list call }.
Arguments mkOutcome {A} returned world trace.
Arguments returned {A} o.
Arguments world {A} o.
Arguments trace {A} o.

Fixpoint run {A} (dc : dist_checkpointing) (m : prog A) (w : World) : outcome A :=
  match m with
  | Ret a => mkOutcome (OK a) w []
  | Raise e => mkOutcome (Error e) w []
  | Do c k =>
      match handle dc c w with
      | (OK x, w') =>
          let o := run dc (k x) w' in
          mkOutcome (returned o) (world o) (c :: trace o)
      | (Error e, w') => mkOutcome (Error e) w' [c]
      end
  end.

(** ** The module *)

(** [a and b] on booleans: [b] is evaluated only when [a] holds. *)
Definition and_then (a : prog bool) (b : prog bool) : prog bool :=
  (let* x := a in if x then b else Ret false)%prog.

(** [x is not None] *)
Definition is_not_None {A} (x : option A) : bool :=
  match x with
  | Some _ => true
  | None => false
  end.

(** [str(b)] for a boolean *)
Definition py_bool (b : bool) : string := if b then "True" else "False".

(** <<
      def ckpt_to_dir(filepath: Union[str, Path]) -> Path:
    >> *)
Definition ckpt_to_dir (filepath : _PATH) : result PurePath :=
  (let filepath := as_Path filepath in
   let* filepath :=
     (if negb (String.eqb (suffix filepath) ".ckpt")
      then with_suffix filepath (suffix filepath +:+ ".ckpt")
      else OK filepath) in
   if negb (String.eqb (suffix filepath) ".ckpt")
   then Error (AssertionError
                 ("filepath: " +:+ str filepath +:+ " must have .ckpt extension"))
   else
     let* checkpoint_dir := with_name filepath (stem filepath) in
     OK checkpoint_dir)%result.

(** <<
      def is_distributed_ckpt(path) -> bool:
    >> *)
Definition is_distributed_ckpt (path : _PATH) : prog bool :=
  (let* checkpoint_dir := lift (ckpt_to_dir path) in
   let* b := and_then (perform (fs_isdir (path_obj checkpoint_dir)))
                (perform (check_is_distributed_checkpoint checkpoint_dir)) in
   if b then Ret true else Ret false)%prog.

(** The nested [_fix_device] of [_fix_tensors_device], closed over
    [cur_dev]. *)
Definition _fix_device (cur_dev : device) (t : value) : value :=
  match t with
  | VTensor t' =>
      if is_cuda t' && negb (bool_decide (tensor_device t' = cur_dev))
      then VTensor (to t' cur_dev)
      else t
  | _ => t
  end.

(** <<
      def _fix_tensors_device(ckpt: Dict) -> Dict:
    >> *)
Definition _fix_tensors_device (ckpt : value) : prog value :=
  (let* initialized := perform cuda_is_initialized in
   (if initialized then Ret tt
    else
      let* a := perform cuda_is_available in
      let* i := perform cuda_is_initialized in
      Raise (AssertionError ("(" +:+ py_bool a +:+ ", " +:+ py_bool i +:+ ")"))
    : prog unit) >>
   let* index := perform cuda_current_device in
   let cur_dev := cuda_device index in
   Ret (dict_list_map_outplace (_fix_device cur_dev) ckpt))%prog.

(** [class MegatronCheckpointIO(CheckpointIO, IOMixin)] *)
Record MegatronCheckpointIO := {
  save_ckpt_format : string;
  save_sharded_strategy : string * Z }.

Definition _determine_dist_ckpt_save_strategy (save_ckpt_format : string)
  : string * Z :=
  let save_strategy := (save_ckpt_format, 1) in
  save_strategy.

(** [MegatronCheckpointIO.__init__]; the default format is ['torch_dist']. *)
Definition __init__ (save_ckpt_format : option string) : MegatronCheckpointIO :=
  let save_ckpt_format := default "torch_dist" save_ckpt_format in
  {| save_ckpt_format := save_ckpt_format;
     save_sharded_strategy := _determine_dist_ckpt_save_strategy save_ckpt_format |}.

(** [MegatronCheckpointIO.save_checkpoint] *)
Definition save_checkpoint {Any : Type} (self : MegatronCheckpointIO)
    (checkpoint : value) (path : _PATH) (storage_options : option Any)
  : prog unit :=
  (if is_not_None storage_options
   then Raise (TypeError
     ("`Trainer.save_checkpoint(..., storage_options=...)` with `storage_options` arg"
      +:+ " is not supported for `MegatronCheckpointIO`. Please implement your custom `CheckpointIO`"
      +:+ " to define how you'd like to use `storage_options`."))
   else
     let* checkpoint_dir := lift (ckpt_to_dir path) in
     let* skip := and_then (perform (fs_isdir (path_obj checkpoint_dir)))
                     (perform (check_is_distributed_checkpoint checkpoint_dir)) in
     if skip then Ret tt
     else
       perform (fs_makedirs (path_obj checkpoint_dir) true) >>
       perform (dist_checkpointing_save checkpoint (str checkpoint_dir)
                  (save_sharded_strategy self)))%prog.

(** [MegatronCheckpointIO.load_checkpoint] *)
Definition load_checkpoint {Callable : Type} (self : MegatronCheckpointIO)
    (path : _PATH) (sharded_state_dict : option value)
    (map_location : option Callable) : prog value :=
  (if is_not_None map_location
   then Raise (ValueError
     "`map_location` argument is not supported for `MegatronCheckpointIO.load_checkpoint`.")
   else
     let* found := perform (fs_exists path) in
     (if negb found
      then Raise (FileNotFoundError ("Checkpoint file not found: " +:+ str_PATH path))
      else Ret tt : prog unit) >>
     let* isd := perform (fs_isdir path) in
     (if negb isd
      then Raise (ValueError
        ("Distributed checkpoints should be a directory. Found: " +:+ str_PATH path +:+ "."))
      else Ret tt : prog unit) >>
     let* checkpoint := perform (dist_checkpointing_load sharded_state_dict (str_PATH path)) in
     let* checkpoint := _fix_tensors_device checkpoint in
     Ret checkpoint)%prog.

(** [MegatronCheckpointIO.remove_checkpoint] *)
Definition remove_checkpoint (self : MegatronCheckpointIO) (path : _PATH)
  : prog unit :=
  (let* found := perform (fs_exists path) in
   if found then perform (fs_rm path true)
   else Ret tt)%prog.

(** ** [TrainerContext] *)

(** A Python object as [hasattr] sees it: the attributes it has.  [None] is
    an object without any of the attributes looked for here. *)
#[local] Unset Elimination Schemes.
Inductive pyobj :=
| Object (attrs : list (string * pyobj)).
#[local] Set Elimination Schemes.

Definition py_None : pyobj := Object [].

(** [getattr(o, a)], when [o] has the attribute *)
Fixpoint assoc (a : string) (attrs : list (string * pyobj)) : option pyobj :=
  match attrs with
  | [] => None
  | (k, v) :: rest => if String.eqb k a then Some v else assoc a rest
  end.

Definition getattr (o : pyobj) (a : string) : option pyobj :=
  match o with Object attrs => assoc a attrs end.

(** [hasattr(o, a)] *)
Definition hasattr (o : pyobj) (a : string) : bool :=
  is_not_None (getattr o a).

(** A [pl.Trainer]: [lightning_module] is a property every trainer has (it
    may be [None]); [__io__] and [datamodule] are probed with [hasattr] and
    so live among the attributes the object happens to have. *)
Record Trainer := mkTrainer {
  trainer_obj : pyobj;
  lightning_module : pyobj }.

(** [@dataclass class TrainerContext] *)
Record TrainerContext := mkTrainerContext {
  model : pyobj;
  trainer : Trainer;
  extra : gmap string pyobj }.

(** [TrainerContext.construct_extra] *)
Definition construct_extra (trainer : Trainer) : gmap string pyobj :=
  let extra : gmap string pyobj := ∅ in
  match getattr (trainer_obj trainer) "datamodule" with
  | Some datamodule =>
      match getattr datamodule "__io__" with
      | Some io => <["datamodule" := io]> extra
      | None => extra
      end
  | None => extra
  end.

(** [TrainerContext.from_trainer]; [IOProtocol] is how the class
    [nemo.lightning.io.capture.IOProtocol] prints in the message. *)
Definition from_trainer (IOProtocol : string) (trainer : Trainer)
  : result TrainerContext :=
  if negb (hasattr (trainer_obj trainer) "__io__")
  then Error (ValueError
    ("Trainer must be an instance of " +:+ IOProtocol
     +:+ ". Please use the Trainer from nemo."))
  else if negb (hasattr (lightning_module trainer) "__io__")
  then Error (ValueError "LightningModule must extend IOMixin.")
  else OK (mkTrainerContext (lightning_module trainer) trainer
             (construct_extra trainer)).

(** ** Notions the properties are stated with *)

(** The extension and the base of a file name, as [suffix] and [stem]
    compute them from [name]. *)
Definition ext (n : string) : string :=
  let i := Str.rfind dot n in
  if (0 <? i) && (i <? Str.len n - 1) then Str.slice_from n i else "".

Definition base (n : string) : string :=
  let i := Str.rfind dot n in
  if (0 <? i) && (i <? Str.len n - 1) then Str.slice_to n i else n.

(** A path with a final component [n] after the components [init]. *)
Definition shaped (p : PurePath) (init : list string) (n : string) : Prop :=
  _root p ∈ [""; "/"; "//"]
  ∧ Forall component init ∧ component n
  ∧ _parts p = root_part (_root p) ++ init ++ [n].

(** The path [p] with its final component replaced by [x]. *)
Definition with_last (p : PurePath) (x : string) : PurePath :=
  mkPath (_root p) (replace_last (_parts p) x).

(** The well-formedness a caller owes: a string is parsed by the module, a
    path object must be one [pathlib] can build. *)
Definition wf_PATH (path : _PATH) : Prop :=
  match path with
  | path_str _ => True
  | path_obj p => wf p
  end.

(** How often a run created a directory, wrote through the backend, or read
    through it. *)
Definition is_makedirs (c : call) : bool :=
  match c with fs_makedirs _ _ => true | _ => false end.

Definition is_backend_save (c : call) : bool :=
  match c with dist_checkpointing_save _ _ _ => true | _ => false end.

Definition is_backend_call (c : call) : bool :=
  match c with
  | check_is_distributed_checkpoint _ | dist_checkpointing_save _ _ _
  | dist_checkpointing_load _ _ => true
  | _ => false
  end.

Definition is_rm (c : call) : bool :=
  match c with fs_rm _ _ => true | _ => false end.

Definition is_backend_load (c : call) : bool :=
  match c with dist_checkpointing_load _ _ => true | _ => false end.

Definition count (f : call → bool) (t : list call) : nat :=
  length (List.filter f t).

(** The relocation the device fix-up is said to perform, in the words of its
    contract: the nesting of dictionaries and lists is kept, key by key and
    position by position; a leaf that is not a tensor stays; a tensor that is
    not on an accelerator, or is on the current device, stays; a tensor on
    another accelerator device becomes a tensor with the same contents on the
    current device. *)
#[local] Unset Elimination Schemes.
Inductive relocated (cur_dev : device) : value → value → Prop :=
| relocated_obj o :
    relocated cur_dev (Obj o) (Obj o)
| relocated_stay t :
    is_cuda t = false ∨ tensor_device t = cur_dev →
    relocated cur_dev (VTensor t) (VTensor t)
| relocated_move t :
    is_cuda t = true → tensor_device t ≠ cur_dev →
    relocated cur_dev (VTensor t) (VTensor (mkTensor (storage t) cur_dev))
| relocated_list l l' :
    Forall2 (relocated cur_dev) l l' →
    relocated cur_dev (VList l) (VList l')
| relocated_dict d d' :
    Forall2 (λ kv kv', kv.1 = kv'.1 ∧ relocated cur_dev kv.2 kv'.2) d d' →
    relocated cur_dev (VDict d) (VDict d').
#[local] Set Elimination Schemes.

(** Every tensor that is a leaf of the nesting of dictionaries and lists
    satisfies [P]; an [Obj] is a leaf whatever it holds. *)
Fixpoint tensors_all (P : Tensor → bool) (x : value) : bool :=
  match x with
  | VTensor t => P t
  | Obj _ => true
  | VList l => forallb (tensors_all P) l
  | VDict d => forallb (λ kv, tensors_all P kv.2) d
  end.

(** A tensor that needs no relocation. *)
Definition well_placed (cur_dev : device) (t : Tensor) : bool :=
  negb (is_cuda t) || bool_decide (tensor_device t = cur_dev).

(** The directory test and the backend probe, as [save_checkpoint] and
    [is_distributed_ckpt] both make them: the probe is asked only about a
    directory. *)
Definition probed (dc : dist_checkpointing) (d : PurePath) (w : World) : outcome bool :=
  if fsspec.isdir (files w) d
  then mkOutcome (dc_check_is_distributed_checkpoint dc (files w) d) w
         [fs_isdir (path_obj d); check_is_distributed_checkpoint d]
  else mkOutcome (OK false) w [fs_isdir (path_obj d)].

(** ** A sample backend and sample worlds *)

Module sample.

(** [d / x] *)
Definition child (d : PurePath) (x : string) : PurePath :=
  mkPath (_root d) (_parts d ++ [x]).

(** A backend that takes a directory for a complete checkpoint when it
    holds a [metadata.json], writes that file on save, and on load hands
    back the layout it was given. *)
Definition backend : dist_checkpointing := {|
  dc_check_is_distributed_checkpoint fs d :=
    OK (bool_decide (fs !! child d "metadata.json" = Some File));
  dc_save checkpoint dir strategy fs :=
    (OK tt, <[child (Path dir) "metadata.json" := File]> fs);
  dc_load layout dir fs :=
    (if bool_decide (fs !! child (Path dir) "metadata.json" = Some File)
     then OK (default (VDict []) layout)
     else Error (BackendError "not a distributed checkpoint"), fs) |}.

Definition io : MegatronCheckpointIO := __init__ None.

Definition on_device (fs : gmap PurePath node) (index : Z) : World :=
  mkWorld fs true true index (Path "/work").

(** Nothing on disk. *)
Definition empty : World := on_device ∅ 0.

(** A complete checkpoint in [dir]. *)
Definition complete (dir : string) : gmap PurePath node :=
  <[child (Path dir) "metadata.json" := File]> (<[Path dir := Dir]> ∅).

(** A plain file at [path]. *)
Definition plain_file (path : string) : gmap PurePath node :=
  <[Path path := File]> ∅.

Definition t0 : Tensor := mkTensor [1; 2; 3] (cuda_device 0).
Definition t1 : Tensor := mkTensor [4; 5] (cuda_device 1).
Definition tc : Tensor := mkTensor [6] (mkDevice "cpu" None).

Definition payload : value :=
  VDict [("w", VTensor t1); ("step", Obj "10");
         ("opt", VList [VTensor t0; VTensor tc; VDict [("m", VTensor t1)]])].

End sample.

(** * Properties *)

(** ** Strings *)

Module StrFacts.
Import Str.

Lemma app_nil_l t : "" +:+ t = t.
Proof. reflexivity. Qed.

Lemma app_cons a s t : String a s +:+ t = String a (s +:+ t).
Proof. reflexivity. Qed.

(** [String.append] does not unfold under [simpl]; push it inwards by hand. *)
Ltac push_app := rewrite ?app_nil_l, ?app_cons.

Lemma len_nonneg s : 0 ≤ len s.
Proof. unfold len. lia. Qed.

Lemma len_String a s : len (String a s) = 1 + len s.
Proof. unfold len. cbn [String.length]. lia. Qed.

Lemma len_app s t : len (s +:+ t) = len s + len t.
Proof.
  induction s as [|a s IH]; push_app.
  - unfold len. simpl. lia.
  - rewrite !len_String, IH. lia.
Qed.

Lemma nonempty_len s : nonempty s = true ↔ 0 < len s.
Proof.
  destruct s; cbn [nonempty].
  - unfold len; simpl. split; [done | lia].
  - rewrite len_String. pose proof (len_nonneg s). split; [lia | done].
Qed.

Lemma nonempty_app_r s t : nonempty t = true → nonempty (s +:+ t) = true.
Proof. intros H. apply nonempty_len. rewrite len_app. apply nonempty_len in H.
  pose proof (len_nonneg s). lia. Qed.

Lemma app_empty_r s : s +:+ "" = s.
Proof. induction s as [|a s IH]; push_app; [done | by rewrite IH]. Qed.

Lemma app_assoc s t u : (s +:+ t) +:+ u = s +:+ (t +:+ u).
Proof. induction s as [|a s IH]; push_app; [done | by rewrite IH]. Qed.

Lemma contains_app c s t : contains c (s +:+ t) = contains c s || contains c t.
Proof.
  induction s as [|a s IH]; push_app; cbn; [done |].
  rewrite IH. by destruct (Ascii.eqb a c).
Qed.

Lemma take_drop n s : take n s +:+ drop n s = s.
Proof.
  revert s. induction n as [|n IH]; intros [|a s]; cbn; push_app; try done.
  by rewrite IH.
Qed.

Lemma len_take n s : Z.of_nat n ≤ len s → len (take n s) = Z.of_nat n.
Proof.
  revert s. induction n as [|n IH]; intros [|a s] H; cbn [take];
    try (unfold len in *; simpl in *; lia).
  rewrite !len_String in *. rewrite IH; lia.
Qed.

Lemma len_drop n s : Z.of_nat n ≤ len s → len (drop n s) = len s - Z.of_nat n.
Proof.
  intros H. rewrite <- (take_drop n s) at 2. rewrite len_app, len_take; lia.
Qed.

Lemma contains_take c n s : contains c s = false → contains c (take n s) = false.
Proof.
  intros H. rewrite <- (take_drop n s), contains_app in H.
  by apply orb_false_iff in H as [? _].
Qed.

Lemma contains_drop c n s : contains c s = false → contains c (drop n s) = false.
Proof.
  intros H. rewrite <- (take_drop n s), contains_app in H.
  by apply orb_false_iff in H as [_ ?].
Qed.

Lemma take_app_len s t : take (String.length s) (s +:+ t) = s.
Proof. induction s as [|a s IH]; push_app; cbn; [by destruct t | by rewrite IH]. Qed.

Lemma drop_app_len s t : drop (String.length s) (s +:+ t) = t.
Proof. induction s as [|a s IH]; push_app; cbn; [by destruct t | done]. Qed.

(** [rfind] stays within the string, and says [-1] exactly when the
    character does not occur. *)
Lemma rfind_range c s : -1 ≤ rfind c s < len s.
Proof.
  induction s as [|a s IH]; cbn [rfind].
  - unfold len; simpl. lia.
  - rewrite len_String. destruct (Z.leb_spec 0 (rfind c s)); [lia |].
    destruct (Ascii.eqb a c); lia.
Qed.

Lemma rfind_absent c s : contains c s = false → rfind c s = -1.
Proof.
  induction s as [|a s IH]; cbn; [done |].
  intros [Ha Hs]%orb_false_iff. rewrite (IH Hs), Ha. done.
Qed.

Lemma rfind_app_last c s t :
  contains c t = false → rfind c (s +:+ String c t) = len s.
Proof.
  intros Ht. induction s as [|a s IH]; push_app; cbn [rfind].
  - rewrite (rfind_absent _ _ Ht), Ascii.eqb_refl. done.
  - rewrite IH, len_String. pose proof (len_nonneg s).
    destruct (Z.leb_spec 0 (len s)); lia.
Qed.

(** At a found index the string splits into what precedes the last
    occurrence and the occurrence followed by a tail free of it. *)
Lemma rfind_split c s :
  0 ≤ rfind c s →
  ∃ t, contains c t = false
       ∧ drop (Z.to_nat (rfind c s)) s = String c t
       ∧ s = take (Z.to_nat (rfind c s)) s +:+ String c t.
Proof.
  induction s as [|a s IH]; cbn [rfind]; [lia |].
  destruct (Z.leb_spec 0 (rfind c s)) as [Hr|Hr].
  - intros _. destruct (IH Hr) as (t & Ht & Hd & Hs). exists t.
    replace (Z.to_nat (rfind c s + 1)) with (S (Z.to_nat (rfind c s))) by lia.
    cbn [drop take]. push_app. by rewrite <- Hs.
  - destruct (Ascii.eqb_spec a c) as [->|]; [|lia]. intros _.
    exists s. cbn. split; [|done].
    destruct (contains c s) eqn:E; [|done].
    assert (rfind c s ≠ -1); [|pose proof (rfind_range c s); lia].
    clear -E. induction s as [|b s IH]; cbn in *; [done |].
    destruct (Z.leb_spec 0 (rfind c s)); [lia |].
    destruct (Ascii.eqb b c); [lia |]. cbn in E. specialize (IH E).
    pose proof (rfind_range c s). lia.
Qed.

Lemma bound_nonneg s i : 0 ≤ i ≤ len s → bound s i = Z.to_nat i.
Proof. intros H. unfold bound. destruct (Z.ltb_spec i 0); lia. Qed.

Lemma bound_neg s k : 0 < k ≤ len s → bound s (- k) = Z.to_nat (len s - k).
Proof. intros H. unfold bound. destruct (Z.ltb_spec (- k) 0); lia. Qed.

Lemma last_no_sep c s : contains c s = false → last s ≠ Some c.
Proof.
  induction s as [|a s IH]; cbn [last contains]; [done |].
  intros [Ha Hs]%orb_false_iff. destruct s as [|b s]; [|by apply IH].
  intros [= ->]. by rewrite Ascii.eqb_refl in Ha.
Qed.

Lemma eqb_false_len s t : len s ≠ len t → String.eqb s t = false.
Proof. intros H. apply String.eqb_neq. by intros ->. Qed.

End StrFacts.

(** ** Paths *)

Module PathFacts.
Import Str StrFacts.

Lemma suffix_ext p : suffix p = ext (name p).
Proof. reflexivity. Qed.

Lemma stem_base p : stem p = base (name p).
Proof. reflexivity. Qed.

Lemma ext_cases n :
  (ext n = "" ∧ base n = n)
  ∨ ∃ t, let i := rfind dot n in
      0 < i ∧ contains dot t = false ∧ t ≠ ""
      ∧ ext n = String dot t ∧ base n = take (Z.to_nat i) n
      ∧ n = base n +:+ ext n
      ∧ len n = i + len (ext n).
Proof.
  unfold ext, base. cbn zeta.
  destruct (Z.ltb_spec 0 (rfind dot n)) as [Hi|]; [|by left].
  destruct (Z.ltb_spec (rfind dot n) (len n - 1)) as [Hj|]; [|by left].
  right. cbn [andb]. destruct (rfind_split dot n) as (t & Ht & Hd & Hn); [lia |].
  exists t. unfold slice_from, slice_to. rewrite bound_nonneg by lia.
  pose proof (len_drop (Z.to_nat (rfind dot n)) n) as Hl.
  rewrite Hd in *. repeat split; try done; [|lia].
  intros ->. change (len (String dot "")) with 1 in Hl. lia.
Qed.

Lemma base_ext n : base n +:+ ext n = n.
Proof.
  destruct (ext_cases n) as [[-> ->]|(t & _ & _ & _ & _ & _ & <- & _)]; [|done].
  apply app_empty_r.
Qed.

Lemma ext_no_sep n : contains sep n = false → contains sep (ext n) = false.
Proof.
  intros H. rewrite <- (base_ext n), contains_app in H.
  by apply orb_false_iff in H as [_ ?].
Qed.

Lemma base_no_sep n : contains sep n = false → contains sep (base n) = false.
Proof.
  intros H. rewrite <- (base_ext n), contains_app in H.
  by apply orb_false_iff in H as [? _].
Qed.

Lemma base_nonempty n : nonempty n = true → nonempty (base n) = true.
Proof.
  intros Hn. destruct (ext_cases n) as [[_ ->]|(t & Hi & _ & _ & _ & -> & _ & _)]; [done |].
  apply nonempty_len. rewrite len_take; [lia |].
  pose proof (rfind_range dot n). lia.
Qed.

(** Dropping the old extension and putting it back. *)
Lemma slice_to_ext n :
  nonempty (ext n) = true → slice_to n (- len (ext n)) = base n.
Proof.
  intros He. destruct (ext_cases n) as [[E _]|(t & Hi & _ & _ & E & -> & Hn & Hl)].
  { by rewrite E in He. }
  pose proof (rfind_range dot n) as Hr.
  unfold slice_to. rewrite bound_neg.
  - f_equal. lia.
  - apply nonempty_len in He. lia.
Qed.

(** A marked name: its extension is the marker and its base is what the
    marker was put on. *)
Lemma ext_marked n : nonempty n = true → ext (n +:+ ".ckpt") = ".ckpt".
Proof.
  intros Hn%nonempty_len. unfold ext. cbn zeta.
  change ".ckpt" with (String dot "ckpt").
  rewrite rfind_app_last by done. rewrite len_app.
  change (len (String dot "ckpt")) with 5.
  destruct (Z.ltb_spec 0 (len n)); [|lia].
  destruct (Z.ltb_spec (len n) (len n + 5 - 1)); [|lia]. cbn [andb].
  unfold slice_from. rewrite bound_nonneg by (rewrite len_app; pose proof (len_nonneg (String dot "ckpt")); lia).
  unfold len. rewrite Nat2Z.id. apply drop_app_len.
Qed.

Lemma base_marked n : nonempty n = true → base (n +:+ ".ckpt") = n.
Proof.
  intros Hn%nonempty_len. unfold base. cbn zeta.
  change ".ckpt" with (String dot "ckpt").
  rewrite rfind_app_last by done. rewrite len_app.
  change (len (String dot "ckpt")) with 5.
  destruct (Z.ltb_spec 0 (len n)); [|lia].
  destruct (Z.ltb_spec (len n) (len n + 5 - 1)); [|lia]. cbn [andb].
  unfold slice_to. rewrite bound_nonneg by (rewrite len_app; pose proof (len_nonneg (String dot "ckpt")); lia).
  unfold len. rewrite Nat2Z.id. apply take_app_len.
Qed.

(** Components *)

Lemma component_nonempty x : component x → nonempty x = true.
Proof. intros [[H _]%andb_true_iff _]. done. Qed.

Lemma component_marked x : component x → component (x +:+ ".ckpt").
Proof.
  intros [[Hn _]%andb_true_iff Hs]. split.
  - unfold kept. rewrite nonempty_app_r by done. cbn [andb].
    rewrite eqb_false_len; [done |]. rewrite len_app.
    apply nonempty_len in Hn. change (len ".ckpt") with 5. change (len ".") with 1. lia.
  - rewrite contains_app, Hs. done.
Qed.

Lemma component_base x : component x → base x ≠ "." → component (base x).
Proof.
  intros [[Hn _]%andb_true_iff Hs] Hd. split.
  - unfold kept. rewrite base_nonempty by done. cbn [andb].
    apply negb_true_iff, String.eqb_neq. done.
  - by apply base_no_sep.
Qed.

Lemma startswith_no_sep x : contains sep x = false → startswith sep x = false.
Proof. destruct x; cbn; [done |]. by intros [? _]%orb_false_iff. Qed.

(** The parser leaves a component alone. *)
Lemma parse_parts_component x : component x → parse_parts x = ("", [x]).
Proof.
  intros [Hk Hs]. pose proof Hk as [Hn _]%andb_true_iff.
  unfold parse_parts, splitroot.
  rewrite Hn, (startswith_no_sep _ Hs), Hs, Hk. done.
Qed.

(** What [split] and [join] do to separator-free pieces. *)

Lemma split_no_sep c s : Forall (λ x, contains c x = false) (split c s).
Proof.
  induction s as [|a s IH]; cbn [split].
  - by constructor.
  - destruct (Ascii.eqb a c) eqn:E; [by constructor |].
    destruct (split c s) as [|x xs]; inversion IH; subst;
      constructor; cbn; rewrite ?E; auto.
Qed.

Lemma split_id c x : contains c x = false → split c x = [x].
Proof.
  induction x as [|a x IH]; cbn; [done |].
  intros [-> Hx]%orb_false_iff. by rewrite (IH Hx).
Qed.

Lemma split_app_sep c x r :
  contains c x = false → split c (x +:+ String c r) = x :: split c r.
Proof.
  induction x as [|a x IH]; push_app; cbn [split contains].
  - by rewrite Ascii.eqb_refl.
  - intros [-> Hx]%orb_false_iff. by rewrite (IH Hx).
Qed.

Lemma split_join c names :
  Forall (λ x, contains c x = false) names → names ≠ [] →
  split c (join c names) = names.
Proof.
  induction 1 as [|x l Hx Hl IH]; [done |]. intros _.
  destruct l as [|y l]; cbn [join].
  - by apply split_id.
  - rewrite split_app_sep by done. f_equal. by apply IH.
Qed.

Lemma join_snoc_app c init n t :
  join c (init ++ [n]) +:+ t = join c (init ++ [n +:+ t]).
Proof.
  induction init as [|x l IH]; [done |].
  change ((x :: l) ++ [n]) with (x :: (l ++ [n])).
  change ((x :: l) ++ [n +:+ t]) with (x :: (l ++ [n +:+ t])).
  cbn [join]. destruct (l ++ [n]) eqn:E1; [by destruct l |].
  destruct (l ++ [n +:+ t]) eqn:E2; [by destruct l |].
  rewrite StrFacts.app_assoc. push_app. by rewrite IH.
Qed.

Lemma join_components names :
  Forall component names → names ≠ [] →
  nonempty (join sep names) = true ∧ startswith sep (join sep names) = false.
Proof.
  destruct 1 as [|x l Hx Hl]; [done |]. intros _.
  pose proof (component_nonempty _ Hx) as Hn. destruct Hx as [_ Hs].
  destruct x as [|a x]; [done |].
  cbn in Hs. apply orb_false_iff in Hs as [Ha _].
  destruct l; cbn [join]; push_app; cbn; by rewrite ?Ha.
Qed.

Lemma lstrip_id c s : startswith c s = false → lstrip c s = s.
Proof. destruct s; cbn; [done |]. by intros ->. Qed.

(** The two branches of the parser compute the same list. *)
Lemma parsed_filter rel :
  (if contains sep rel then List.filter kept (split sep rel)
   else if kept rel then [rel] else [])
  = List.filter kept (split sep rel).
Proof.
  destruct (contains sep rel) eqn:E; [done |].
  rewrite (split_id _ _ E). cbn. by destruct (kept rel).
Qed.

Lemma filter_kept names : Forall component names → List.filter kept names = names.
Proof.
  induction 1 as [|x l [Hk _] _ IH]; [done |]. cbn. by rewrite Hk, IH.
Qed.

Lemma splitroot_roots part : (splitroot part).1 ∈ [""; "/"; "//"].
Proof.
  unfold splitroot. destruct (startswith sep part); [|set_solver].
  destruct (_ =? 2); set_solver.
Qed.

(** Every parsed path is well formed. *)
Lemma Path_wf s : wf (Path s).
Proof.
  unfold Path, parse_parts. destruct (negb (nonempty s)).
  { split; [set_solver |]. exists []. by split. }
  pose proof (splitroot_roots s) as Hr.
  destruct (splitroot s) as [root rel]. rewrite parsed_filter. cbn in *.
  split; [done |]. exists (List.filter kept (split sep rel)).
  split; [|unfold root_part; cbn; by destruct (nonempty root)].
  apply List.Forall_forall. intros x [Hx Hk]%filter_In. split; [done |].
  pose proof (split_no_sep sep rel) as Hs.
  rewrite List.Forall_forall in Hs. by apply Hs.
Qed.

Lemma root_part_length r :
  length (root_part r) = if nonempty r then 1%nat else 0%nat.
Proof. unfold root_part. by destruct (nonempty r). Qed.

Lemma name_snoc p l n : _parts p = root_part (_root p) ++ l ++ [n] → name p = n.
Proof.
  intros H. unfold name. rewrite H, !length_app, root_part_length. cbn [length].
  rewrite (assoc_L (++)), List.last_last.
  destruct (nonempty (_root p));
    match goal with
    | |- context [(?a =? ?b)%nat] => destruct (Nat.eqb_spec a b); [lia | done]
    end.
Qed.

Lemma name_nil p : _parts p = root_part (_root p) → name p = "".
Proof.
  intros H. unfold name. rewrite H, root_part_length. by rewrite Nat.eqb_refl.
Qed.

Lemma shaped_name p init n : shaped p init n → name p = n.
Proof. intros (_ & _ & _ & H). by eapply name_snoc. Qed.

Lemma shaped_wf p init n : shaped p init n → wf p.
Proof.
  intros (Hr & Hi & Hn & H). split; [done |]. exists (init ++ [n]).
  split; [|done]. apply Forall_app. split; [done | by constructor].
Qed.

Lemma wf_shaped p :
  wf p → nonempty (name p) = true → ∃ init, shaped p init (name p).
Proof.
  intros (Hr & names & Hc & H) Hn.
  destruct names as [|n init _] using rev_ind.
  { rewrite app_nil_r in H. by rewrite (name_nil _ H) in Hn. }
  rewrite (name_snoc _ _ _ H). apply Forall_app in Hc as [Hi Hl].
  exists init. split; [done |]. split; [done |].
  split; [by inversion Hl | done].
Qed.

Lemma wf_unnamed p :
  wf p → nonempty (name p) = false → _parts p = root_part (_root p).
Proof.
  intros (Hr & names & Hc & H) Hn.
  destruct names as [|n init _] using rev_ind; [by rewrite app_nil_r in H |].
  rewrite (name_snoc _ _ _ H) in Hn. apply Forall_app in Hc as [_ Hl].
  inversion Hl as [|?? Hx]; subst. by rewrite (component_nonempty _ Hx) in Hn.
Qed.

Lemma replace_last_snoc l n x : replace_last (l ++ [n]) x = l ++ [x].
Proof. unfold replace_last. by rewrite removelast_last. Qed.

Lemma with_last_parts p init n x :
  shaped p init n → _parts (with_last p x) = root_part (_root p) ++ init ++ [x].
Proof.
  intros (_ & _ & _ & H). cbn [with_last _root _parts].
  rewrite H, (assoc_L (++)), replace_last_snoc.
  by rewrite <- (assoc_L (++)).
Qed.

Lemma with_last_shaped p init n x :
  shaped p init n → component x → shaped (with_last p x) init x.
Proof.
  intros Hp Hx. pose proof (with_last_parts _ _ _ x Hp) as H.
  destruct Hp as (Hr & Hi & _ & _). split; [done |]. by split.
Qed.

Lemma with_last_same p init n : shaped p init n → with_last p n = p.
Proof.
  intros Hp. pose proof (with_last_parts _ _ _ n Hp) as H.
  destruct Hp as (_ & _ & _ & H'). destruct p as [r ps]. unfold with_last in *.
  cbn in *. by rewrite H, H'.
Qed.

Lemma with_last_twice p init n x y :
  shaped p init n → with_last (with_last p x) y = with_last p y.
Proof.
  intros (_ & _ & _ & H). unfold with_last. cbn [_root _parts]. f_equal.
  by rewrite H, (assoc_L (++)), !replace_last_snoc.
Qed.

Lemma with_last_neq p init n x : shaped p init n → x ≠ n → with_last p x ≠ p.
Proof.
  intros Hp Hx E. apply Hx. rewrite <- (shaped_name _ _ _ Hp), <- E.
  symmetry. eapply name_snoc. cbn [_root with_last]. by eapply with_last_parts.
Qed.

(** What [str] prints, and how the parser reads it back. *)

Lemma str_shaped p init n :
  shaped p init n → str p = _root p +:+ join sep (init ++ [n]).
Proof.
  intros (Hr & Hi & Hn & H). unfold str. rewrite H.
  assert (Forall component (init ++ [n])) as Hc.
  { apply Forall_app. split; [done | by constructor]. }
  destruct (join_components _ Hc) as [Hne _]; [by destruct init |].
  unfold root_part. destruct (nonempty (_root p)) eqn:E.
  - cbn [app tail]. by rewrite nonempty_app_r.
  - cbn [app]. rewrite Hne. by destruct (_root p).
Qed.

Lemma Path_join root names :
  root ∈ [""; "/"; "//"] → Forall component names → names ≠ [] →
  Path (root +:+ join sep names) = mkPath root (root_part root ++ names).
Proof.
  intros Hr Hc Hne. destruct (join_components _ Hc Hne) as [Hn Hs].
  assert (Forall (λ x, contains sep x = false) names) as Hc'.
  { eapply Forall_impl; [exact Hc |]. by intros x [_ ?]. }
  unfold Path, parse_parts. rewrite nonempty_app_r by done. cbn [negb].
  assert (splitroot (root +:+ join sep names) = (root, join sep names)) as ->.
  { unfold splitroot. set (rel := join sep names) in *.
    apply elem_of_cons in Hr as [->|Hr]; [by rewrite app_nil_l, Hs |].
    apply elem_of_cons in Hr as [->|Hr].
    - change ("/" +:+ rel) with (String sep rel). cbn [startswith lstrip].
      rewrite Ascii.eqb_refl, (lstrip_id _ _ Hs), len_String.
      destruct (Z.eqb_spec (1 + len rel - len rel) 2); [lia | done].
    - apply list_elem_of_singleton in Hr as ->.
      change ("//" +:+ rel) with (String sep (String sep rel)).
      cbn [startswith lstrip].
      rewrite !Ascii.eqb_refl, (lstrip_id _ _ Hs), !len_String.
      destruct (Z.eqb_spec (1 + (1 + len rel) - len rel) 2); [done | lia]. }
  rewrite parsed_filter, split_join, filter_kept by done.
  unfold root_part. by destruct (nonempty root).
Qed.

(** Putting a separator-free tail on the printed form of a path puts it on
    its final component. *)
Lemma Path_str_marked p init n :
  shaped p init n → Path (str p +:+ ".ckpt") = with_last p (n +:+ ".ckpt").
Proof.
  intros Hp. rewrite (str_shaped _ _ _ Hp), StrFacts.app_assoc, join_snoc_app.
  pose proof Hp as (Hr & Hi & Hn & H).
  rewrite Path_join; [| done | | by destruct init].
  - pose proof (with_last_parts _ _ _ (n +:+ ".ckpt") Hp) as E.
    unfold with_last in *. cbn [_parts] in E. by rewrite E.
  - apply Forall_app. split; [done |]. constructor; [|done].
    by apply component_marked.
Qed.

(** ** [ckpt_to_dir] *)

(** The marker goes onto the name whatever extension the name has. *)
Lemma with_suffix_marker p init n :
  shaped p init n →
  with_suffix p (suffix p +:+ ".ckpt") = OK (with_last p (n +:+ ".ckpt")).
Proof.
  intros Hp. pose proof (shaped_name _ _ _ Hp) as Hname.
  pose proof Hp as (_ & _ & Hn & _).
  pose proof (component_nonempty _ Hn) as Hne. destruct Hn as [_ Hs].
  unfold with_suffix. rewrite suffix_ext, Hname.
  rewrite contains_app, (ext_no_sep _ Hs). cbn [contains orb].
  assert (nonempty (ext n +:+ ".ckpt") && negb (startswith dot (ext n +:+ ".ckpt"))
          || String.eqb (ext n +:+ ".ckpt") "." = false) as ->.
  { rewrite eqb_false_len.
    - destruct (ext_cases n) as [[-> _]|(t & _ & _ & _ & -> & _)]; [done |].
      push_app. cbn. done.
    - rewrite len_app. pose proof (len_nonneg (ext n)).
      change (len ".ckpt") with 5. change (len ".") with 1. lia. }
  rewrite Hne. cbn [negb]. do 2 f_equal.
  destruct (nonempty (ext n)) eqn:E; cbn [negb].
  - rewrite slice_to_ext by done.
    by rewrite <- StrFacts.app_assoc, base_ext.
  - destruct (ext n); [done | discriminate].
Qed.

Lemma with_name_component p init n x :
  shaped p init n → component x → with_name p x = OK (with_last p x).
Proof.
  intros Hp Hx. unfold with_name.
  rewrite (shaped_name _ _ _ Hp).
  pose proof Hp as (_ & _ & Hn & _).
  rewrite (component_nonempty _ Hn), (parse_parts_component _ Hx),
    (component_nonempty _ Hx). cbn [negb orb nonempty].
  destruct Hx as [_ Hs]. rewrite bool_decide_eq_false_2; [done |].
  by apply last_no_sep.
Qed.

(** A name without the marker: the directory is the path itself. *)
Lemma ckpt_to_dir_unmarked p init n :
  shaped p init n → ext n ≠ ".ckpt" → ckpt_to_dir (path_obj p) = OK p.
Proof.
  intros Hp He. pose proof Hp as (_ & _ & Hn & _).
  pose proof (component_marked _ Hn) as Hm.
  pose proof (with_last_shaped _ _ _ _ Hp Hm) as Hq.
  unfold ckpt_to_dir. cbn [as_Path].
  rewrite suffix_ext at 1. rewrite (shaped_name _ _ _ Hp).
  apply String.eqb_neq in He. rewrite He. cbn [negb].
  rewrite (with_suffix_marker _ _ _ Hp). cbn [result_then].
  rewrite suffix_ext, stem_base, (shaped_name _ _ _ Hq).
  rewrite ext_marked, base_marked by (by apply component_nonempty).
  rewrite String.eqb_refl. cbn [negb].
  rewrite (with_name_component _ _ _ _ Hq Hn). cbn [result_then].
  by rewrite (with_last_twice _ _ _ _ _ Hp), (with_last_same _ _ _ Hp).
Qed.

(** A name with the marker: the directory is the path with the marker
    taken off, unless nothing but ["."] would be left. *)
Lemma ckpt_to_dir_marked p init n :
  shaped p init n → ext n = ".ckpt" →
  ckpt_to_dir (path_obj p) =
    if String.eqb (base n) "." then Error (ValueError "Invalid name '.'")
    else OK (with_last p (base n)).
Proof.
  intros Hp He. pose proof Hp as (_ & _ & Hn & _).
  unfold ckpt_to_dir. cbn [as_Path].
  rewrite suffix_ext, (shaped_name _ _ _ Hp), He.
  rewrite String.eqb_refl. cbn [negb result_then].
  rewrite suffix_ext, stem_base, (shaped_name _ _ _ Hp), He, String.eqb_refl.
  cbn [negb].
  destruct (String.eqb_spec (base n) ".") as [E|E].
  - rewrite E. unfold with_name. rewrite (shaped_name _ _ _ Hp).
    by rewrite (component_nonempty _ Hn).
  - by rewrite (with_name_component _ _ _ _ Hp (component_base _ Hn E)).
Qed.

(** A path without a final component has no directory. *)
Lemma ckpt_to_dir_unnamed p :
  nonempty (name p) = false →
  ckpt_to_dir (path_obj p) = Error (ValueError (repr p +:+ " has an empty name")).
Proof.
  intros Hn. unfold ckpt_to_dir. cbn [as_Path].
  assert (name p = "") as E by (by destruct (name p)).
  rewrite suffix_ext, E. cbn [ext]. unfold with_suffix. rewrite E. done.
Qed.

Lemma ckpt_to_dir_str s : ckpt_to_dir (path_str s) = ckpt_to_dir (path_obj (Path s)).
Proof. reflexivity. Qed.

Lemma wf_as_Path path : wf_PATH path → wf (as_Path path).
Proof. destruct path; [intros _; apply Path_wf | done]. Qed.

(** Whatever [ckpt_to_dir] returns has a final component, and is either the
    path itself or the path with the marker taken off its name. *)
Lemma ckpt_to_dir_OK path d :
  wf_PATH path → ckpt_to_dir path = OK d →
  ∃ init, shaped (as_Path path) init (name (as_Path path))
    ∧ shaped d init (name d)
    ∧ ((suffix (as_Path path) ≠ ".ckpt" ∧ d = as_Path path)
       ∨ (suffix (as_Path path) = ".ckpt"
          ∧ d = with_last (as_Path path) (stem (as_Path path)))).
Proof.
  intros Hwf%wf_as_Path. replace (ckpt_to_dir path) with (ckpt_to_dir (path_obj (as_Path path)))
    by (by destruct path).
  set (p := as_Path path) in *. clearbody p. clear path.
  destruct (nonempty (name p)) eqn:Hn.
  2:{ by rewrite ckpt_to_dir_unnamed. }
  destruct (wf_shaped _ Hwf Hn) as [init Hp]. intros Hd. exists init.
  rewrite suffix_ext, stem_base.
  destruct (decide (ext (name p) = ".ckpt")) as [He|He].
  - rewrite (ckpt_to_dir_marked _ _ _ Hp He) in Hd.
    destruct (String.eqb_spec (base (name p)) ".") as [|Hb]; [done |].
    injection Hd as <-. pose proof Hp as (_ & _ & Hc & _).
    pose proof (with_last_shaped _ _ _ _ Hp (component_base _ Hc Hb)) as Hq.
    rewrite (shaped_name _ _ _ Hq). split; [done |]. split; [done |]. by right.
  - rewrite (ckpt_to_dir_unmarked _ _ _ Hp He) in Hd. injection Hd as <-.
    split; [done |]. split; [done |]. by left.
Qed.

End PathFacts.

(** ** Running method bodies *)

Module RunFacts.
Import PathFacts.

Lemma run_lift_OK {A B} dc (r : result A) (a : A) (k : A → prog B) w :
  r = OK a → run dc (prog_then (lift r) k) w = run dc (k a) w.
Proof. by intros ->. Qed.

Lemma run_lift_Error {A B} dc (r : result A) e (k : A → prog B) w :
  r = Error e → run dc (prog_then (lift r) k) w = mkOutcome (Error e) w [].
Proof. by intros ->. Qed.

Lemma run_is_distributed_ckpt dc path d w :
  ckpt_to_dir path = OK d → run dc (is_distributed_ckpt path) w = probed dc d w.
Proof.
  intros H. unfold is_distributed_ckpt. rewrite (run_lift_OK _ _ _ _ _ H).
  unfold probed. cbn. destruct (fsspec.isdir (files w) d); cbn; [|done].
  by destruct (dc_check_is_distributed_checkpoint dc (files w) d) as [[]|].
Qed.

Lemma run_is_distributed_ckpt_Error dc path e w :
  ckpt_to_dir path = Error e →
  run dc (is_distributed_ckpt path) w = mkOutcome (Error e) w [].
Proof. intros H. unfold is_distributed_ckpt. by rewrite (run_lift_Error _ _ _ _ _ H). Qed.

(** On a directory that does not itself end in the marker the oracle makes
    the very test [save_checkpoint] makes before it writes. *)
Lemma is_distributed_ckpt_on_directory dc d init w :
  shaped d init (name d) → suffix d ≠ ".ckpt" →
  run dc (is_distributed_ckpt (path_obj d)) w = probed dc d w.
Proof.
  intros Hd He. apply run_is_distributed_ckpt.
  apply (ckpt_to_dir_unmarked _ _ _ Hd). by rewrite <- suffix_ext.
Qed.

Lemma isdir_exists fs p : fsspec.isdir fs p = true → fsspec.exists_ fs p = true.
Proof.
  unfold fsspec.isdir, fsspec.exists_. intros H%bool_decide_eq_true.
  apply bool_decide_eq_true. by rewrite H.
Qed.

(** Induction over a payload, through its lists and dictionaries. *)
Lemma value_ind (P : value → Prop) :
  (∀ t, P (VTensor t)) →
  (∀ o, P (Obj o)) →
  (∀ l, Forall P l → P (VList l)) →
  (∀ d, Forall (λ kv, P kv.2) d → P (VDict d)) →
  ∀ x, P x.
Proof.
  intros Ht Ho Hl Hd.
  fix IH 1. intros [t|o|l|d].
  - apply Ht.
  - apply Ho.
  - apply Hl. induction l as [|x l IHl]; constructor; [apply IH | exact IHl].
  - apply Hd. induction d as [|[k x] d IHd]; constructor; [apply IH | exact IHd].
Qed.

End RunFacts.

(** ** The filesystem and the device fix-up *)

Module FsFacts.
Import fsspec.




End FsFacts.

Module FixFacts.
Import RunFacts.

Lemma fix_device_relocated cur_dev x :
  relocated cur_dev x (dict_list_map_outplace (_fix_device cur_dev) x).
Proof.
  induction x as [t|o|l IH|d IH] using value_ind; cbn [dict_list_map_outplace].
  - unfold _fix_device. destruct (is_cuda t) eqn:Hc; cbn [andb].
    + destruct (decide (tensor_device t = cur_dev)) as [E|E].
      * rewrite bool_decide_eq_true_2 by done. constructor. by right.
      * rewrite bool_decide_eq_false_2 by done. by constructor.
    + constructor. by left.
  - constructor.
  - constructor. induction IH; constructor; done.
  - constructor. induction IH; constructor; done.
Qed.

Lemma fix_device_well_placed cur_dev x :
  tensors_all (well_placed cur_dev) x = true →
  dict_list_map_outplace (_fix_device cur_dev) x = x.
Proof.
  induction x as [t|o|l IH|d IH] using value_ind;
    cbn [dict_list_map_outplace tensors_all].
  - unfold well_placed, _fix_device. destruct (is_cuda t); cbn; [|done].
    by intros ->.
  - done.
  - intros H. f_equal. induction IH as [|x l Hx _ IHl]; [done |].
    cbn in H. apply andb_true_iff in H as [H1 H2]. cbn.
    by rewrite (Hx H1), (IHl H2).
  - intros H. f_equal. induction IH as [|[k x] l Hx _ IHl]; [done |].
    cbn in H. apply andb_true_iff in H as [H1 H2]. cbn in *.
    by rewrite (Hx H1), (IHl H2).
Qed.

End FixFacts.

(** * The store's contract *)

Section store.
Import PathFacts RunFacts FsFacts FixFacts.

Variable dc : dist_checkpointing.
Variable self : MegatronCheckpointIO.

(** C1. Saving with no storage options onto a path whose checkpoint
    directory is already a directory that the backend's probe reports
    complete is a success by skipping: the call returns normally, the world
    is left as it was, the only calls made are the directory test and the
    probe, and so no directory is created and the backend writes nothing. *)
Theorem save_checkpoint_skips_complete
    (Any : Type) (checkpoint : value) (path : _PATH) (d : PurePath) (w : World) :
  ckpt_to_dir path = OK d →
  fsspec.isdir (files w) d = true →
  dc_check_is_distributed_checkpoint dc (files w) d = OK true →
  let o := run dc (save_checkpoint self checkpoint path (@None Any)) w in
  returned o = OK tt
  ∧ world o = w
  ∧ trace o = [fs_isdir (path_obj d); check_is_distributed_checkpoint d]
  ∧ count is_makedirs (trace o) = 0%nat
  ∧ count is_backend_save (trace o) = 0%nat.
Proof.
  intros Hd Hdir Hok. unfold save_checkpoint. cbn [is_not_None].
  rewrite (run_lift_OK _ _ _ _ _ Hd). cbn. rewrite Hdir. cbn. rewrite Hok.
  cbn. done.
Qed.

(** What [save_checkpoint] does when it does not skip: it creates the
    directory and, when that worked, hands the payload, the printed
    directory and the strategy fixed at construction to the backend. *)
Lemma save_checkpoint_otherwise
    (Any : Type) (checkpoint : value) (path : _PATH) (d : PurePath) (w : World) :
  ckpt_to_dir path = OK d →
  returned (probed dc d w) = OK false →
  let o := run dc (save_checkpoint self checkpoint path (@None Any)) w in
  ∃ rest,
    trace o = trace (probed dc d w) ++ fs_makedirs (path_obj d) true :: rest
    ∧ (rest = []
       ∨ rest = [dist_checkpointing_save checkpoint (str d)
                   (save_sharded_strategy self)]).
Proof.
  intros Hd. unfold save_checkpoint. cbn [is_not_None].
  rewrite (run_lift_OK _ _ _ _ _ Hd). unfold probed. cbn.
  destruct (fsspec.isdir (files w) d); cbn.
  - intros ->. cbn.
    destruct (fsspec.makedirs (files w) d true); cbn; [|eauto].
    destruct (dc_save _ _ _ _ _) as [[[]|] ?]; cbn; eauto.
  - intros _.
    destruct (fsspec.makedirs (files w) d true); cbn; [|eauto].
    destruct (dc_save _ _ _ _ _) as [[[]|] ?]; cbn; eauto.
Qed.

(** C2, as amended. For every path with a final component whose extension
    is not already [.ckpt], [ckpt_to_dir] first puts the marker on the path,
    giving the path that [P.ckpt] names, then takes it off again, and the
    directory it returns is the path itself. *)
Theorem ckpt_to_dir_unmarked_identity (path : _PATH) :
  wf_PATH path →
  let P := as_Path path in
  Str.nonempty (name P) = true →
  suffix P ≠ ".ckpt" →
  ∃ marked,
    with_suffix P (suffix P +:+ ".ckpt") = OK marked
    ∧ marked = Path (str P +:+ ".ckpt")
    ∧ suffix marked = ".ckpt"
    ∧ with_name marked (stem marked) = OK P
    ∧ ckpt_to_dir path = OK P.
Proof.
  intros Hwf%wf_as_Path P Hn He.
  destruct (wf_shaped _ Hwf Hn) as [init Hp]. fold P in Hp.
  pose proof Hp as (_ & _ & Hc & _).
  pose proof (with_last_shaped _ _ _ _ Hp (component_marked _ Hc)) as Hq.
  exists (with_last P (name P +:+ ".ckpt")).
  split; [by apply (with_suffix_marker _ _ _ Hp) |].
  split; [by rewrite (Path_str_marked _ _ _ Hp) |].
  rewrite suffix_ext, stem_base, (shaped_name _ _ _ Hq).
  rewrite ext_marked, base_marked by done.
  split; [done |]. split.
  - rewrite (with_name_component _ _ _ _ Hq Hc).
    by rewrite (with_last_twice _ _ _ _ _ Hp), (with_last_same _ _ _ Hp).
  - replace (ckpt_to_dir path) with (ckpt_to_dir (path_obj P)) by (by destruct path).
    apply (ckpt_to_dir_unmarked _ _ _ Hp). by rewrite <- suffix_ext.
Qed.

(** C3. For every path whose extension is not [.ckpt], putting the marker
    back on the directory that [ckpt_to_dir] returned and resolving again
    gives that same directory; a path [ckpt_to_dir] rejects is rejected the
    same way on both sides.  When the path has a final component both sides
    are the path itself. *)
Theorem ckpt_to_dir_remarked (path : _PATH) :
  wf_PATH path →
  suffix (as_Path path) ≠ ".ckpt" →
  result_then (ckpt_to_dir path)
    (λ d, ckpt_to_dir (path_str (str d +:+ ".ckpt")))
  = ckpt_to_dir path
  ∧ (Str.nonempty (name (as_Path path)) = true →
     ckpt_to_dir path = OK (as_Path path)
     ∧ ckpt_to_dir (path_str (str (as_Path path) +:+ ".ckpt"))
       = OK (as_Path path)).
Proof.
  intros Hwf He.
  assert (∀ d, ckpt_to_dir path = OK d →
               ckpt_to_dir (path_str (str d +:+ ".ckpt")) = OK d) as Hre.
  { intros d Hd. destruct (ckpt_to_dir_OK _ _ Hwf Hd) as (init & _ & Hq & _).
    pose proof Hq as (_ & _ & Hc & _).
    pose proof (with_last_shaped _ _ _ _ Hq (component_marked _ Hc)) as Hm.
    rewrite ckpt_to_dir_str, (Path_str_marked _ _ _ Hq).
    rewrite (ckpt_to_dir_marked _ _ _ Hm)
      by (by apply ext_marked, component_nonempty).
    rewrite base_marked by (by apply component_nonempty).
    destruct Hc as [[_ Hk%negb_true_iff]%andb_true_iff _]. rewrite Hk.
    by rewrite (with_last_twice _ _ _ _ _ Hq), (with_last_same _ _ _ Hq). }
  split.
  - destruct (ckpt_to_dir path) as [d|e] eqn:Hd; cbn [result_then]; [|done].
    by apply Hre.
  - intros Hn. destruct (wf_shaped _ (wf_as_Path _ Hwf) Hn) as [init Hp].
    assert (ckpt_to_dir path = OK (as_Path path)) as Hd.
    { replace (ckpt_to_dir path) with (ckpt_to_dir (path_obj (as_Path path)))
        by (by destruct path).
      apply (ckpt_to_dir_unmarked _ _ _ Hp). by rewrite <- suffix_ext. }
    split; [done | by apply Hre].
Qed.

(** C4. A save with storage options and a load with a device remap fail at
    once, the first with [TypeError] and the second with [ValueError]: the
    world is untouched and no call at all has been made, whatever the path
    is and whether or not it could be resolved. *)
Theorem unsupported_option_fails_first
    (Any Callable : Type) (checkpoint : value) (path : _PATH)
    (sharded_state_dict : option value)
    (storage_options : Any) (map_location : Callable) (w : World) :
  (∃ msg,
      run dc (save_checkpoint self checkpoint path (Some storage_options)) w
      = mkOutcome (Error (TypeError msg)) w [])
  ∧ (∃ msg,
      run dc (load_checkpoint self path sharded_state_dict (Some map_location)) w
      = mkOutcome (Error (ValueError msg)) w []).
Proof.
  split; eexists; reflexivity.
Qed.

(** C5. A load without a device remap of a path that does not exist fails
    with [FileNotFoundError] after the existence test alone; of a path that
    exists but is not a directory it fails with [ValueError] after the
    existence and the directory test.  In both cases the backend has not
    been called and the world is untouched. *)
Theorem load_checkpoint_missing_or_not_a_directory
    (Callable : Type) (path : _PATH) (sharded_state_dict : option value)
    (w : World) :
  let o := run dc (load_checkpoint self path sharded_state_dict (@None Callable)) w in
  (fsspec.exists_ (files w) (as_Path path) = false →
     returned o
       = Error (FileNotFoundError ("Checkpoint file not found: " +:+ str_PATH path))
     ∧ world o = w
     ∧ trace o = [fs_exists path])
  ∧ (fsspec.exists_ (files w) (as_Path path) = true →
     fsspec.isdir (files w) (as_Path path) = false →
     returned o
       = Error (ValueError
           ("Distributed checkpoints should be a directory. Found: "
            +:+ str_PATH path +:+ "."))
     ∧ world o = w
     ∧ trace o = [fs_exists path; fs_isdir path])
  ∧ (fsspec.isdir (files w) (as_Path path) = false →
     count is_backend_call (trace o) = 0%nat).
Proof.
  unfold load_checkpoint. cbn.
  destruct (fsspec.exists_ (files w) (as_Path path)) eqn:Hex; cbn.
  - destruct (fsspec.isdir (files w) (as_Path path)) eqn:Hdir; cbn.
    + split; [done |]. split; done.
    + split; [done |]. split; done.
  - split; [done |]. split; done.
Qed.

(** Go through the calls of a trace that is known in full. *)
Ltac in_trace H :=
  repeat (apply elem_of_cons in H as [->|H]);
  [ first [ by left | by right; left | by right; right; left
          | right; right; right; rewrite !elem_of_cons; tauto ] ..
  | by apply elem_of_nil in H ].

(** C6. A load works on the path as the caller gave it.  Every call a load
    makes to the filesystem or to the backend carries that very path (the
    backend its printed form); the existence test comes first, the
    directory test second and the backend read third.  Nothing resolves
    the path through [ckpt_to_dir] on the way. *)
Theorem load_checkpoint_uses_raw_path
    (Callable : Type) (path : _PATH) (sharded_state_dict : option value)
    (map_location : option Callable) (w : World) :
  let o := run dc (load_checkpoint self path sharded_state_dict map_location) w in
  (∀ c, c ∈ trace o →
     c = fs_exists path ∨ c = fs_isdir path
     ∨ c = dist_checkpointing_load sharded_state_dict (str_PATH path)
     ∨ c ∈ [cuda_is_initialized; cuda_is_available; cuda_current_device])
  ∧ (map_location = None →
     trace o !! 0%nat = Some (fs_exists path)
     ∧ (fsspec.exists_ (files w) (as_Path path) = true →
        trace o !! 1%nat = Some (fs_isdir path))
     ∧ (fsspec.isdir (files w) (as_Path path) = true →
        trace o !! 2%nat
        = Some (dist_checkpointing_load sharded_state_dict (str_PATH path)))).
Proof.
  unfold load_checkpoint. destruct map_location as [m|]; cbn.
  { split; [by intros c ?%elem_of_nil | done]. }
  destruct (fsspec.exists_ (files w) (as_Path path)) eqn:Hex; cbn.
  2:{ split; [|split; [done |]; split; [done |]].
      - intros c ->%list_elem_of_singleton. by left.
      - by intros ?%isdir_exists%(eq_trans (eq_sym Hex)). }
  destruct (fsspec.isdir (files w) (as_Path path)) eqn:Hdir; cbn.
  2:{ split; [|done]. intros c Hc. in_trace Hc. }
  destruct (dc_load dc sharded_state_dict (str_PATH path) (files w))
    as [[ckpt|e] fs'] eqn:Hload; cbn.
  2:{ split; [|done]. intros c Hc. in_trace Hc. }
  destruct (cuda_initialized w); cbn; (split; [|done]); intros c Hc; in_trace Hc.
Qed.


(** C8. With the accelerator runtime initialised, the device fix-up returns
    a payload and changes nothing else: it asks only for the runtime's state
    and the current device.  The payload returned is the relocation of the
    one given: same nesting, same keys, non-tensors and well-placed tensors
    as they were, every accelerator tensor on another device replaced by one
    with the same contents on the current device.  When no tensor needs to
    move the payload returned is the payload given. *)
Theorem fix_tensors_device_relocates (ckpt : value) (w : World) :
  cuda_initialized w = true →
  let cur_dev := cuda_device (current_device w) in
  let o := run dc (_fix_tensors_device ckpt) w in
  ∃ ckpt',
    returned o = OK ckpt'
    ∧ world o = w
    ∧ trace o = [cuda_is_initialized; cuda_current_device]
    ∧ relocated cur_dev ckpt ckpt'
    ∧ (tensors_all (well_placed cur_dev) ckpt = true → ckpt' = ckpt).
Proof.
  intros Hinit cur_dev. unfold _fix_tensors_device. cbn. rewrite Hinit. cbn.
  exists (dict_list_map_outplace (_fix_device cur_dev) ckpt).
  split; [done |]. split; [done |]. split; [done |].
  split; [apply fix_device_relocated | apply fix_device_well_placed].
Qed.


(** C10, as amended. When the directory that [ckpt_to_dir] resolves a path
    to does not itself end in [.ckpt], [is_distributed_ckpt] gives the same
    outcome on the path and on that directory: in both cases it tests and
    probes the directory and nothing else.  For a path ending in [.ckpt]
    the directory differs from the path, so the path as given is not what
    is probed. *)
Theorem is_distributed_ckpt_normalizes (path : _PATH) (d : PurePath) (w : World) :
  wf_PATH path →
  ckpt_to_dir path = OK d →
  suffix d ≠ ".ckpt" →
  run dc (is_distributed_ckpt path) w
    = run dc (is_distributed_ckpt (path_obj d)) w
  ∧ run dc (is_distributed_ckpt path) w = probed dc d w
  ∧ (suffix (as_Path path) = ".ckpt" → d ≠ as_Path path).
Proof.
  intros Hwf Hd He.
  destruct (ckpt_to_dir_OK _ _ Hwf Hd) as (init & Hp & Hq & Hcase).
  assert (ckpt_to_dir (path_obj d) = OK d) as Hdd.
  { apply (ckpt_to_dir_unmarked _ _ _ Hq). by rewrite <- suffix_ext. }
  rewrite (run_is_distributed_ckpt _ _ _ _ Hd), (run_is_distributed_ckpt _ _ _ _ Hdd).
  split; [done |]. split; [done |]. intros Hm.
  destruct Hcase as [[Hne _]|[_ ->]]; [done |].
  apply (with_last_neq _ _ _ _ Hp). rewrite stem_base. intros Hb.
  rewrite suffix_ext in Hm. pose proof (base_ext (name (as_Path path))) as Hn.
  rewrite Hb, Hm in Hn. apply (f_equal Str.len) in Hn.
  rewrite StrFacts.len_app in Hn. change (Str.len ".ckpt") with 5 in Hn. lia.
Qed.

End store.

(** * The contract at work *)

Section scenarios.
Import sample.

(** Resolving a few paths. *)
Example ckpt_to_dir_examples :
  ckpt_to_dir (path_str "step10.ckpt") = OK (Path "step10")
  ∧ ckpt_to_dir (path_str "run/step10") = OK (Path "run/step10")
  ∧ ckpt_to_dir (path_str "/ckpts/model.pt") = OK (Path "/ckpts/model.pt")
  ∧ ckpt_to_dir (path_str "a/b.tar.ckpt/") = OK (Path "a/b.tar")
  ∧ ckpt_to_dir (path_str "/")
    = Error (ValueError "PosixPath('/') has an empty name")
  ∧ ckpt_to_dir (path_str ".")
    = Error (ValueError "PosixPath('.') has an empty name").
Proof. repeat split; vm_compute; reflexivity. Qed.

(** The scenario of the specification: save, save again, load, remove,
    load again. *)
Example end_to_end :
  let first := run backend
    (save_checkpoint io payload (path_str "step10.ckpt") (@None unit)) empty in
  let second := run backend
    (save_checkpoint io payload (path_str "step10.ckpt") (@None unit)) (world first) in
  let loaded := run backend
    (load_checkpoint io (path_str "step10/") (Some payload) (@None unit)) (world second) in
  let removed := run backend
    (remove_checkpoint io (path_str "step10/")) (world loaded) in
  let again := run backend
    (load_checkpoint io (path_str "step10/") (Some payload) (@None unit)) (world removed) in
  returned first = OK tt
  ∧ count is_backend_save (trace first) = 1%nat
  ∧ fsspec.isdir (files (world first)) (Path "step10") = true
  ∧ returned second = OK tt
  ∧ count is_backend_save (trace second) = 0%nat
  ∧ returned loaded
    = OK (dict_list_map_outplace (_fix_device (cuda_device 0)) payload)
  ∧ returned removed = OK tt
  ∧ fsspec.exists_ (files (world removed)) (Path "step10") = false
  ∧ returned again
    = Error (FileNotFoundError "Checkpoint file not found: step10/").
Proof. repeat split; vm_compute; reflexivity. Qed.

(** A load does not resolve the marker: after a save to [step10.ckpt] the
    checkpoint is at [step10], and loading [step10.ckpt] finds nothing. *)
Example load_does_not_strip_marker :
  returned (run backend
    (load_checkpoint io (path_str "step10.ckpt") None (@None unit))
    (on_device (complete "step10") 0))
  = Error (FileNotFoundError "Checkpoint file not found: step10.ckpt").
Proof. vm_compute. reflexivity. Qed.

(** Without an initialised accelerator runtime the device fix-up fails its
    assertion. *)
Example fix_tensors_device_uninitialised :
  returned (run backend (_fix_tensors_device payload) (mkWorld ∅ false true 0 (Path "/work")))
  = Error (AssertionError "(True, False)").
Proof. vm_compute. reflexivity. Qed.

(** C1 at work: a second save onto a complete checkpoint. *)
Lemma save_checkpoint_skips_complete_witness :
  let w := on_device (complete "step10") 0 in
  let o := run backend
    (save_checkpoint io payload (path_str "step10.ckpt") (@None unit)) w in
  ckpt_to_dir (path_str "step10.ckpt") = OK (Path "step10")
  ∧ fsspec.isdir (files w) (Path "step10") = true
  ∧ returned o = OK tt
  ∧ world o = w
  ∧ count is_makedirs (trace o) = 0%nat
  ∧ count is_backend_save (trace o) = 0%nat.
Proof.
  intros w o.
  assert (ckpt_to_dir (path_str "step10.ckpt") = OK (Path "step10")) as Hd
    by (vm_compute; reflexivity).
  assert (fsspec.isdir (files w) (Path "step10") = true) as Hdir
    by (vm_compute; reflexivity).
  split; [exact Hd |]. split; [exact Hdir |].
  destruct (save_checkpoint_skips_complete backend io unit payload
              (path_str "step10.ckpt") (Path "step10") w Hd Hdir)
    as (H1 & H2 & _ & H4 & H5); [vm_compute; reflexivity |].
  repeat split; assumption.
Defined.

(** C2: a path that already carries the marker does not come back as
    itself. *)
Lemma ckpt_to_dir_marked_path_differs :
  ckpt_to_dir (path_str "step10.ckpt") = OK (Path "step10")
  ∧ ckpt_to_dir (path_str "step10.ckpt") ≠ OK (as_Path (path_str "step10.ckpt")).
Proof. split; [vm_compute; reflexivity |]. vm_compute. discriminate. Qed.

Lemma ckpt_to_dir_unmarked_identity_witness :
  wf_PATH (path_str "run/step10.pt")
  ∧ suffix (Path "run/step10.pt") = ".pt"
  ∧ with_suffix (Path "run/step10.pt") ".pt.ckpt" = OK (Path "run/step10.pt.ckpt")
  ∧ ckpt_to_dir (path_str "run/step10.pt") = OK (Path "run/step10.pt").
Proof.
  split; [exact I |]. split; [vm_compute; reflexivity |].
  destruct (ckpt_to_dir_unmarked_identity (path_str "run/step10.pt") I)
    as (marked & Hm & -> & _ & _ & Hd).
  - vm_compute. reflexivity.
  - vm_compute. discriminate.
  - split; [exact Hm | exact Hd].
Defined.

Lemma ckpt_to_dir_remarked_witness :
  wf_PATH (path_str "run/step10")
  ∧ suffix (Path "run/step10") ≠ ".ckpt"
  ∧ ckpt_to_dir (path_str "run/step10") = OK (Path "run/step10")
  ∧ ckpt_to_dir (path_str (str (Path "run/step10") +:+ ".ckpt"))
    = OK (Path "run/step10").
Proof.
  assert (suffix (Path "run/step10") ≠ ".ckpt") as He
    by (vm_compute; discriminate).
  split; [exact I |]. split; [exact He |].
  destruct (ckpt_to_dir_remarked (path_str "run/step10") I He) as [_ H].
  apply H. vm_compute. reflexivity.
Defined.

Lemma load_checkpoint_missing_or_not_a_directory_witness :
  returned (run backend
    (load_checkpoint io (path_str "step10") None (@None unit)) empty)
  = Error (FileNotFoundError "Checkpoint file not found: step10")
  ∧ returned (run backend
      (load_checkpoint io (path_str "step10") None (@None unit))
      (on_device (plain_file "step10") 0))
    = Error (ValueError
        "Distributed checkpoints should be a directory. Found: step10.").
Proof.
  split.
  - destruct (load_checkpoint_missing_or_not_a_directory backend io unit
                (path_str "step10") None empty) as ((H & _) & _);
      [vm_compute; reflexivity | exact H].
  - destruct (load_checkpoint_missing_or_not_a_directory backend io unit
                (path_str "step10") None (on_device (plain_file "step10") 0))
      as (_ & H & _).
    destruct H as (H & _); [vm_compute; reflexivity .. | exact H].
Defined.

Lemma load_checkpoint_uses_raw_path_witness :
  trace (run backend
    (load_checkpoint io (path_str "step10.ckpt") None (@None unit)) empty)
    !! 0%nat
  = Some (fs_exists (path_str "step10.ckpt")).
Proof.
  destruct (load_checkpoint_uses_raw_path backend io unit
              (path_str "step10.ckpt") None None empty) as (_ & H).
  destruct (H eq_refl) as (H0 & _). exact H0.
Defined.

(** Which paths name the working directory [/work]. *)
Example is_cwd_examples :
  fsspec.is_cwd (Path "/work") (Path ".") = true
  ∧ fsspec.is_cwd (Path "/work") (Path "/work/") = true
  ∧ fsspec.is_cwd (Path "/work") (Path "step10/..") = true
  ∧ fsspec.is_cwd (Path "/work") (Path "/work/../work") = true
  ∧ fsspec.is_cwd (Path "/work") (Path "step10") = false
  ∧ fsspec.is_cwd (Path "/work") (Path "/") = false
  ∧ fsspec.is_cwd (Path "/work") (Path "..") = false.
Proof. repeat split; vm_compute; reflexivity. Qed.



Lemma fix_tensors_device_relocates_witness :
  ∃ ckpt',
    returned (run backend (_fix_tensors_device payload) (on_device ∅ 0))
    = OK ckpt'
    ∧ relocated (cuda_device 0) payload ckpt'.
Proof.
  destruct (fix_tensors_device_relocates backend payload (on_device ∅ 0) eq_refl)
    as (ckpt' & H1 & _ & _ & H4 & _).
  exists ckpt'. split; [exact H1 | exact H4].
Defined.


(** A name that [ckpt_to_dir] cannot resolve is rejected by the oracle as
    well, before the filesystem is looked at. *)
Example is_distributed_ckpt_unresolved :
  let o := run backend (is_distributed_ckpt (path_str "..ckpt")) empty in
  returned o = Error (ValueError "Invalid name '.'") ∧ trace o = [].
Proof. split; vm_compute; reflexivity. Qed.


(** C10: with a doubled marker the path and the directory it resolves to
    are classified differently. *)
Lemma is_distributed_ckpt_double_marker :
  let w := on_device (complete "step10.ckpt") 0 in
  ckpt_to_dir (path_str "step10.ckpt.ckpt") = OK (Path "step10.ckpt")
  ∧ returned (run backend (is_distributed_ckpt (path_str "step10.ckpt.ckpt")) w)
    = OK true
  ∧ returned (run backend (is_distributed_ckpt (path_obj (Path "step10.ckpt"))) w)
    = OK false.
Proof. repeat split; vm_compute; reflexivity. Qed.

Lemma is_distributed_ckpt_normalizes_witness :
  let w := on_device (complete "step10") 0 in
  ckpt_to_dir (path_str "step10.ckpt") = OK (Path "step10")
  ∧ run backend (is_distributed_ckpt (path_str "step10.ckpt")) w
    = run backend (is_distributed_ckpt (path_obj (Path "step10"))) w
  ∧ Path "step10" ≠ Path "step10.ckpt".
Proof.
  intros w.
  assert (ckpt_to_dir (path_str "step10.ckpt") = OK (Path "step10")) as Hd
    by (vm_compute; reflexivity).
  split; [exact Hd |].
  destruct (is_distributed_ckpt_normalizes backend (path_str "step10.ckpt")
              (Path "step10") w I Hd) as (H1 & _ & H3).
  - vm_compute. discriminate.
  - split; [exact H1 |]. apply H3. vm_compute. reflexivity.
Defined.

End scenarios.


(** * More of the module *)

(** ** Directory creation *)

Module MakedirsFacts.
Import fsspec.

Lemma foldr_insert_Dir (l : list PurePath) (fs : gmap PurePath node) q :
  foldr (λ a m, <[a := Dir]> m) fs l !! q
  = if decide (q ∈ l) then Some Dir else fs !! q.
Proof.
  induction l as [|a l IH]; cbn [foldr].
  - rewrite decide_False; [done | by intros ?%elem_of_nil].
  - destruct (decide (a = q)) as [->|Hne].
    + rewrite lookup_insert_eq, decide_True; [done | by left].
    + rewrite lookup_insert_ne, IH by done.
      destruct (decide (q ∈ l)) as [Hq|Hq].
      * rewrite decide_True; [done | by right].
      * rewrite decide_False; [done |].
        intros [?|?]%elem_of_cons; [by subst | done].
Qed.

(** When [makedirs] succeeds the path is a directory afterwards and whatever
    was there before is still there. *)
Lemma makedirs_OK (fs fs' : gmap PurePath node) p :
  makedirs fs p true = OK fs' → isdir fs' p = true ∧ fs ⊆ fs'.
Proof.
  unfold makedirs, isdir. destruct (fs !! p) as [[|]|] eqn:Hp; [done | |].
  { intros [= <-]. split; [by apply bool_decide_eq_true |done]. }
  destruct (existsb _ _) eqn:Hex; [done |]. intros [= <-]. split.
  - apply bool_decide_eq_true. rewrite foldr_insert_Dir, decide_True; [done |].
    apply elem_of_app. right. by left.
  - apply map_subseteq_spec. intros q x Hq. rewrite foldr_insert_Dir.
    destruct (decide (q ∈ ancestors p ++ [p])) as [Hin|]; [|done].
    apply elem_of_app in Hin as [Hin|Hin%list_elem_of_singleton].
    + destruct x; [|done]. exfalso.
      assert (existsb (λ a, bool_decide (fs !! a = Some File)) (ancestors p) = true)
        as Hc; [|congruence].
      apply existsb_exists. exists q. split; [by apply list_elem_of_In |].
      by apply bool_decide_eq_true.
    + subst. congruence.
Qed.

(** It succeeds unless the path or a directory above it is a plain file. *)
Lemma makedirs_succeeds (fs : gmap PurePath node) p :
  fs !! p ≠ Some File →
  (∀ a, a ∈ ancestors p → fs !! a ≠ Some File) →
  ∃ fs', makedirs fs p true = OK fs'.
Proof.
  intros Hp Ha. unfold makedirs. destruct (fs !! p) as [[|]|]; [done | eauto |].
  destruct (existsb _ _) eqn:Hex; [|eauto].
  apply existsb_exists in Hex as (a & Hin%list_elem_of_In & Hf%bool_decide_eq_true).
  by destruct (Ha a Hin).
Qed.

End MakedirsFacts.

(** ** The device fix-up, again *)

Module PlacementFacts.
Import RunFacts.

(** After the fix-up no tensor leaf is left on another accelerator
    device. *)
Lemma fix_device_places cur_dev x :
  tensors_all (well_placed cur_dev)
    (dict_list_map_outplace (_fix_device cur_dev) x) = true.
Proof.
  induction x as [t|o|l IH|d IH] using value_ind;
    cbn [dict_list_map_outplace].
  - unfold _fix_device, well_placed. destruct (is_cuda t) eqn:Hc; cbn [andb].
    + destruct (decide (tensor_device t = cur_dev)) as [E|E].
      * rewrite bool_decide_eq_true_2 by done. cbn. rewrite Hc. cbn.
        by apply bool_decide_eq_true.
      * rewrite bool_decide_eq_false_2 by done. cbn.
        apply orb_true_iff. right. by apply bool_decide_eq_true.
    + cbn. by rewrite Hc.
  - done.
  - cbn. induction IH as [|x l Hx _ IHl]; [done |]. cbn. by rewrite Hx, IHl.
  - cbn. induction IH as [|[k x] l Hx _ IHl]; [done |]. cbn in *.
    by rewrite Hx, IHl.
Qed.

End PlacementFacts.

(** ** [ckpt_to_dir], beyond the contract *)

Section resolving.
Import PathFacts.

(** X1. On a well-formed path [ckpt_to_dir] fails exactly when there is no
    final component to put the marker on, or when the final component is
    [..ckpt], whose stem ["."] is no name.  Both failures are [ValueError]s
    of [pathlib]; the assertion that guards the marker never fires. *)
Theorem ckpt_to_dir_failures (path : _PATH) :
  wf_PATH path →
  let P := as_Path path in
  (Str.nonempty (name P) = false →
     ckpt_to_dir path = Error (ValueError (repr P +:+ " has an empty name")))
  ∧ (name P = "..ckpt" →
     ckpt_to_dir path = Error (ValueError "Invalid name '.'"))
  ∧ (Str.nonempty (name P) = true → name P ≠ "..ckpt" →
     ∃ d, ckpt_to_dir path = OK d)
  ∧ (∀ msg, ckpt_to_dir path ≠ Error (AssertionError msg)).
Proof.
  intros Hwf%wf_as_Path P.
  replace (ckpt_to_dir path) with (ckpt_to_dir (path_obj P)) by (by destruct path).
  fold P in Hwf. clearbody P. clear path.
  destruct (Str.nonempty (name P)) eqn:Hn.
  2:{ rewrite (ckpt_to_dir_unnamed _ Hn). split; [done |].
      split; [by intros E; rewrite E in Hn |]. by split. }
  destruct (wf_shaped _ Hwf Hn) as [init Hp]. split; [done |].
  destruct (decide (ext (name P) = ".ckpt")) as [He|He].
  - rewrite (ckpt_to_dir_marked _ _ _ Hp He).
    destruct (String.eqb_spec (base (name P)) ".") as [Hb|Hb].
    + assert (name P = "..ckpt") as E.
      { rewrite <- (base_ext (name P)), Hb, He. done. }
      split; [done |]. split; [done | done].
    + split; [|split; [eauto | done]].
      intros E. rewrite E in Hb. by vm_compute in Hb.
  - rewrite (ckpt_to_dir_unmarked _ _ _ Hp He).
    split; [|split; [eauto | done]].
    intros E. rewrite E in He. by vm_compute in He.
Qed.

(** X2. From a path whose extension is [.ckpt] exactly one marker is taken
    off: the directory printed, with [.ckpt] put back, is the path
    printed. *)
Theorem ckpt_to_dir_strips_one_marker (path : _PATH) (d : PurePath) :
  wf_PATH path →
  suffix (as_Path path) = ".ckpt" →
  ckpt_to_dir path = OK d →
  str d +:+ ".ckpt" = str (as_Path path)
  ∧ name d +:+ ".ckpt" = name (as_Path path).
Proof.
  intros Hwf Hm Hd.
  destruct (ckpt_to_dir_OK _ _ Hwf Hd) as (init & Hp & Hq & [[Hne _]|[_ E]]);
    [done |].
  pose proof (base_ext (name (as_Path path))) as Hn.
  rewrite <- suffix_ext, <- stem_base, Hm in Hn.
  assert (name d = stem (as_Path path)) as En.
  { rewrite E. eapply name_snoc. cbn [_root with_last].
    exact (with_last_parts _ _ _ _ Hp). }
  split; [|by rewrite En].
  rewrite (str_shaped _ _ _ Hq), (str_shaped _ _ _ Hp).
  rewrite StrFacts.app_assoc, join_snoc_app, En, Hn.
  by rewrite E.
Qed.

(** X3. The directory [ckpt_to_dir] returns always has a final component
    and is well formed, and it lies where the path lies: same root, same
    components before the last.  So it is never a bare root or the empty
    path. *)
Theorem ckpt_to_dir_stays_in_place (path : _PATH) (d : PurePath) :
  wf_PATH path →
  ckpt_to_dir path = OK d →
  wf d
  ∧ Str.nonempty (name d) = true
  ∧ _root d = _root (as_Path path)
  ∧ removelast (_parts d) = removelast (_parts (as_Path path))
  ∧ _parts d ≠ root_part (_root d).
Proof.
  intros Hwf Hd.
  destruct (ckpt_to_dir_OK _ _ Hwf Hd) as (init & Hp & Hq & Hcase).
  assert (_root d = _root (as_Path path)) as Hr
    by (by destruct Hcase as [[_ ->]|[_ ->]]).
  pose proof Hq as (_ & _ & Hc & Hparts).
  pose proof Hp as (_ & _ & _ & Hparts').
  split; [by eapply shaped_wf |]. split; [by apply component_nonempty |].
  split; [done |]. split.
  - rewrite Hparts, Hparts', Hr, !(assoc_L (++)), !removelast_last. done.
  - rewrite Hparts. intros E. apply (f_equal length) in E.
    rewrite !length_app in E. cbn in E. lia.
Qed.

(** X4. Resolving a second time changes nothing exactly when the directory
    does not itself end in [.ckpt]. *)
Theorem ckpt_to_dir_idempotent_iff (path : _PATH) (d : PurePath) :
  wf_PATH path →
  ckpt_to_dir path = OK d →
  (ckpt_to_dir (path_obj d) = OK d ↔ suffix d ≠ ".ckpt").
Proof.
  intros Hwf Hd.
  destruct (ckpt_to_dir_OK _ _ Hwf Hd) as (init & _ & Hq & _).
  rewrite suffix_ext. split.
  - intros Hdd He. rewrite (ckpt_to_dir_marked _ _ _ Hq He) in Hdd.
    destruct (String.eqb (base (name d)) "."); [done |].
    injection Hdd as Hdd. revert Hdd. apply (with_last_neq _ _ _ _ Hq).
    intros Hb. pose proof (base_ext (name d)) as Hn.
    rewrite Hb, He in Hn. apply (f_equal Str.len) in Hn.
    rewrite StrFacts.len_app in Hn. change (Str.len ".ckpt") with 5 in Hn. lia.
  - intros He. by apply (ckpt_to_dir_unmarked _ _ _ Hq).
Qed.

End resolving.

(** ** The store, beyond the contract *)

Section store_more.
Import PathFacts RunFacts FsFacts FixFacts MakedirsFacts PlacementFacts.

Variable dc : dist_checkpointing.
Variable self : MegatronCheckpointIO.

(** X5. [is_distributed_ckpt] only looks: whatever the path and the backend,
    the world is as it was, at most the directory test and the probe are
    made, in that order, and an error it raises is the error of
    [ckpt_to_dir] or the error of the probe. *)
Theorem is_distributed_ckpt_only_looks (path : _PATH) (w : World) :
  let o := run dc (is_distributed_ckpt path) w in
  world o = w
  ∧ (trace o = []
     ∨ (∃ d, ckpt_to_dir path = OK d
          ∧ (trace o = [fs_isdir (path_obj d)]
             ∨ trace o = [fs_isdir (path_obj d);
                          check_is_distributed_checkpoint d])))
  ∧ (∀ e, returned o = Error e →
       ckpt_to_dir path = Error e
       ∨ ∃ d, ckpt_to_dir path = OK d
            ∧ fsspec.isdir (files w) d = true
            ∧ dc_check_is_distributed_checkpoint dc (files w) d = Error e).
Proof.
  cbn zeta. destruct (ckpt_to_dir path) as [d|e] eqn:Hd.
  - rewrite (run_is_distributed_ckpt _ _ _ _ Hd). unfold probed.
    destruct (fsspec.isdir (files w) d) eqn:Hdir; cbn.
    + split; [done |]. split; [right; exists d; auto |].
      intros e He. right. exists d. auto.
    + split; [done |]. split; [right; exists d; auto | done].
  - rewrite (run_is_distributed_ckpt_Error _ _ _ _ Hd). cbn.
    split; [done |]. split; [by left |]. intros e' [= <-]. by left.
Qed.

(** X6. [save_checkpoint] decides as [is_distributed_ckpt] does on the same
    path.  Where the oracle says [True] the save skips; where the oracle
    raises, the save raises the same error; in both cases the save has made
    the oracle's calls and no other, and the world is as it was.  Where the
    oracle says [False] the save goes on to create the directory. *)
Theorem save_checkpoint_follows_oracle
    (Any : Type) (checkpoint : value) (path : _PATH) (w : World) :
  let q := run dc (is_distributed_ckpt path) w in
  let o := run dc (save_checkpoint self checkpoint path (@None Any)) w in
  (returned q = OK true →
     returned o = OK tt ∧ world o = w ∧ trace o = trace q)
  ∧ (∀ e, returned q = Error e →
     returned o = Error e ∧ world o = w ∧ trace o = trace q)
  ∧ (returned q = OK false →
     ∃ d rest, ckpt_to_dir path = OK d
       ∧ trace o = trace q ++ fs_makedirs (path_obj d) true :: rest).
Proof.
  cbn zeta. unfold save_checkpoint. cbn [is_not_None].
  destruct (ckpt_to_dir path) as [d|e] eqn:Hd.
  2:{ rewrite (run_is_distributed_ckpt_Error _ _ _ _ Hd). cbn.
      split; [done |]. split; [|done]. by intros e' [= <-]. }
  rewrite (run_is_distributed_ckpt _ _ _ _ Hd).
  unfold probed. cbn. destruct (fsspec.isdir (files w) d); cbn.
  - destruct (dc_check_is_distributed_checkpoint dc (files w) d) as [[|]|e]; cbn.
    + split; [done |]. split; [done | done].
    + split; [done |]. split; [done |]. intros _. exists d.
      destruct (fsspec.makedirs (files w) d true); cbn; [|eauto].
      destruct (dc_save _ _ _ _ _) as [[[]|] ?]; cbn; eauto.
    + split; [done |]. split; [|done]. by intros e' [= <-].
  - split; [done |]. split; [done |]. intros _. exists d.
    destruct (fsspec.makedirs (files w) d true); cbn; [|eauto].
    destruct (dc_save _ _ _ _ _) as [[[]|] ?]; cbn; eauto.
Qed.

(** X7. A save that does not skip first makes sure of the directory.  When
    neither the directory's place nor a directory above it is taken by a
    plain file, [makedirs] succeeds; the backend is then called once, on a
    filesystem where the directory is a directory and nothing that was
    there is lost, with the payload, the printed directory and the
    strategy of the store; what the backend answers is what the save
    answers. *)
Theorem save_checkpoint_ensures_directory
    (Any : Type) (checkpoint : value) (path : _PATH) (d : PurePath) (w : World) :
  ckpt_to_dir path = OK d →
  returned (probed dc d w) = OK false →
  files w !! d ≠ Some File →
  (∀ a, a ∈ fsspec.ancestors d → files w !! a ≠ Some File) →
  ∃ fs',
    fsspec.makedirs (files w) d true = OK fs'
    ∧ fsspec.isdir fs' d = true
    ∧ files w ⊆ fs'
    ∧ run dc (save_checkpoint self checkpoint path (@None Any)) w
      = let r := dc_save dc checkpoint (str d) (save_sharded_strategy self) fs' in
        mkOutcome r.1 (set_files w r.2)
          (trace (probed dc d w)
           ++ [fs_makedirs (path_obj d) true;
               dist_checkpointing_save checkpoint (str d)
                 (save_sharded_strategy self)]).
Proof.
  intros Hd Hq Hfile Hanc.
  destruct (makedirs_succeeds _ _ Hfile Hanc) as [fs' Hmk].
  destruct (makedirs_OK _ _ _ Hmk) as [Hdir Hsub].
  exists fs'. split; [done |]. split; [done |]. split; [done |].
  unfold save_checkpoint. cbn [is_not_None].
  rewrite (run_lift_OK _ _ _ _ _ Hd). revert Hq. unfold probed. cbn.
  destruct (fsspec.isdir (files w) d); cbn.
  - intros ->. cbn. rewrite Hmk. cbn.
    by destruct (dc_save _ _ _ _ _) as [[[]|] ?].
  - intros _. rewrite Hmk. cbn.
    by destruct (dc_save _ _ _ _ _) as [[[]|] ?].
Qed.

(** X8. Where a plain file sits at the directory's place the save fails with
    [FileExistsError] from [makedirs]: the backend is not called and the
    world is as it was. *)
Theorem save_checkpoint_onto_file
    (Any : Type) (checkpoint : value) (path : _PATH) (d : PurePath) (w : World) :
  ckpt_to_dir path = OK d →
  files w !! d = Some File →
  let o := run dc (save_checkpoint self checkpoint path (@None Any)) w in
  returned o = Error (FileExistsError (str d))
  ∧ world o = w
  ∧ trace o = [fs_isdir (path_obj d); fs_makedirs (path_obj d) true].
Proof.
  intros Hd Hf.
  assert (fsspec.isdir (files w) d = false) as Hdir.
  { unfold fsspec.isdir. rewrite Hf. by apply bool_decide_eq_false_2. }
  assert (fsspec.makedirs (files w) d true = Error (FileExistsError (str d)))
    as Hmk by (unfold fsspec.makedirs; by rewrite Hf).
  unfold save_checkpoint. cbn [is_not_None].
  rewrite (run_lift_OK _ _ _ _ _ Hd). cbn. rewrite Hdir. cbn. rewrite Hmk.
  cbn. done.
Qed.

(** X9. Whatever its arguments, a save delegates at most once and removes
    nothing: it makes at most one [makedirs] and at most one backend write,
    no removal and no backend read, and a backend write it makes carries
    the payload it was given, the printed form of the resolved directory
    and the strategy of the store. *)
Theorem save_checkpoint_delegates_once
    (Any : Type) (checkpoint : value) (path : _PATH)
    (storage_options : option Any) (w : World) :
  let o := run dc (save_checkpoint self checkpoint path storage_options) w in
  (count is_makedirs (trace o) ≤ 1)%nat
  ∧ (count is_backend_save (trace o) ≤ 1)%nat
  ∧ count is_rm (trace o) = 0%nat
  ∧ count is_backend_load (trace o) = 0%nat
  ∧ (∀ c, c ∈ trace o → is_backend_save c = true →
       ∃ d, ckpt_to_dir path = OK d
         ∧ c = dist_checkpointing_save checkpoint (str d)
                 (save_sharded_strategy self)).
Proof.
  cbn zeta. unfold save_checkpoint. destruct storage_options as [so|]; cbn.
  { repeat split; try done; try lia. by intros c ?%elem_of_nil. }
  destruct (ckpt_to_dir path) as [d|e] eqn:Hd; cbn.
  2:{ repeat split; try done; try lia. by intros c ?%elem_of_nil. }
  assert (∀ t : list call,
    (∀ c, c ∈ t → is_backend_save c = true →
       c = dist_checkpointing_save checkpoint (str d) (save_sharded_strategy self)) →
    ∀ c, c ∈ t → is_backend_save c = true →
       ∃ d0, OK d = OK d0
         ∧ c = dist_checkpointing_save checkpoint (str d0)
                 (save_sharded_strategy self)) as Hwrap.
  { intros t Ht c Hc Hs. exists d. split; [done | by apply Ht]. }
  destruct (fsspec.isdir (files w) d); cbn;
    [destruct (dc_check_is_distributed_checkpoint dc (files w) d) as [[|]|e]; cbn |];
    try (destruct (fsspec.makedirs (files w) d true); cbn;
         [destruct (dc_save _ _ _ _ _) as [[[]|] ?]; cbn |]);
    (split; [unfold count; cbn; lia |]);
    (split; [unfold count; cbn; lia |]);
    (split; [done |]); (split; [done |]);
    apply Hwrap; intros c Hc Hs;
    repeat (apply elem_of_cons in Hc as [->|Hc]; [done || discriminate |]);
    by apply elem_of_nil in Hc.
Qed.

(** X10. A load of an existing directory, with the accelerator runtime
    initialised, returns what the backend read, relocated: every tensor
    that is a leaf of the payload's nesting of dictionaries and lists is,
    if it is an accelerator tensor, on the current device.  (What sits
    inside any other object, a tuple for one, is not visited: that object
    is a leaf and comes back as it is.)  It makes five calls: the two
    tests, the backend read and the two queries of the runtime; the
    filesystem is as the backend left it. *)
Theorem load_checkpoint_returns_placed
    (Callable : Type) (path : _PATH) (sharded_state_dict : option value)
    (w : World) (checkpoint : value) (fs' : gmap PurePath node) :
  fsspec.isdir (files w) (as_Path path) = true →
  dc_load dc sharded_state_dict (str_PATH path) (files w) = (OK checkpoint, fs') →
  cuda_initialized w = true →
  let cur_dev := cuda_device (current_device w) in
  let o := run dc (load_checkpoint self path sharded_state_dict (@None Callable)) w in
  returned o = OK (dict_list_map_outplace (_fix_device cur_dev) checkpoint)
  ∧ (∀ ckpt', returned o = OK ckpt' →
       relocated cur_dev checkpoint ckpt'
       ∧ tensors_all (well_placed cur_dev) ckpt' = true)
  ∧ world o = set_files w fs'
  ∧ trace o = [fs_exists path; fs_isdir path;
               dist_checkpointing_load sharded_state_dict (str_PATH path);
               cuda_is_initialized; cuda_current_device].
Proof.
  intros Hdir Hload Hinit cur_dev. unfold load_checkpoint. cbn.
  rewrite (isdir_exists _ _ Hdir). cbn. rewrite Hdir. cbn. rewrite Hload. cbn.
  rewrite Hinit. cbn. split; [done |]. split; [|done].
  intros ckpt' [= <-]. split; [apply fix_device_relocated | apply fix_device_places].
Qed.

(** X11. An error of the backend read goes through a load unchanged, and
    the accelerator runtime is not asked. *)
Theorem load_checkpoint_backend_error
    (Callable : Type) (path : _PATH) (sharded_state_dict : option value)
    (w : World) (e : exn) (fs' : gmap PurePath node) :
  fsspec.isdir (files w) (as_Path path) = true →
  dc_load dc sharded_state_dict (str_PATH path) (files w) = (Error e, fs') →
  let o := run dc (load_checkpoint self path sharded_state_dict (@None Callable)) w in
  returned o = Error e
  ∧ world o = set_files w fs'
  ∧ trace o = [fs_exists path; fs_isdir path;
               dist_checkpointing_load sharded_state_dict (str_PATH path)].
Proof.
  intros Hdir Hload. unfold load_checkpoint. cbn.
  rewrite (isdir_exists _ _ Hdir). cbn. rewrite Hdir. cbn. rewrite Hload. cbn. done.
Qed.

(** X12. Without an initialised accelerator runtime a load fails its
    assertion only after the backend has read the checkpoint: the read is
    in the trace and what it read is dropped. *)
Theorem load_checkpoint_uninitialised
    (Callable : Type) (path : _PATH) (sharded_state_dict : option value)
    (w : World) (checkpoint : value) (fs' : gmap PurePath node) :
  fsspec.isdir (files w) (as_Path path) = true →
  dc_load dc sharded_state_dict (str_PATH path) (files w) = (OK checkpoint, fs') →
  cuda_initialized w = false →
  let o := run dc (load_checkpoint self path sharded_state_dict (@None Callable)) w in
  returned o
    = Error (AssertionError ("(" +:+ py_bool (cuda_available w) +:+ ", False)"))
  ∧ world o = set_files w fs'
  ∧ trace o = [fs_exists path; fs_isdir path;
               dist_checkpointing_load sharded_state_dict (str_PATH path);
               cuda_is_initialized; cuda_is_available; cuda_is_initialized].
Proof.
  intros Hdir Hload Hinit. unfold load_checkpoint. cbn.
  rewrite (isdir_exists _ _ Hdir). cbn. rewrite Hdir. cbn. rewrite Hload. cbn.
  rewrite Hinit. cbn. rewrite Hinit. cbn. done.
Qed.

(** X13. A load changes nothing by itself: it creates no directory, removes
    nothing, writes nothing through the backend and reads through it at
    most once; when the backend read is not reached the world is as it
    was. *)
Theorem load_checkpoint_only_reads
    (Callable : Type) (path : _PATH) (sharded_state_dict : option value)
    (map_location : option Callable) (w : World) :
  let o := run dc (load_checkpoint self path sharded_state_dict map_location) w in
  count is_makedirs (trace o) = 0%nat
  ∧ count is_rm (trace o) = 0%nat
  ∧ count is_backend_save (trace o) = 0%nat
  ∧ (count is_backend_load (trace o) ≤ 1)%nat
  ∧ (count is_backend_load (trace o) = 0%nat → world o = w).
Proof.
  cbn zeta. unfold load_checkpoint. destruct map_location as [m|]; cbn.
  { repeat split; try done. lia. }
  destruct (fsspec.exists_ (files w) (as_Path path)); cbn;
    [|repeat split; try done; unfold count; cbn; lia].
  destruct (fsspec.isdir (files w) (as_Path path)); cbn;
    [|repeat split; try done; unfold count; cbn; lia].
  destruct (dc_load dc sharded_state_dict (str_PATH path) (files w))
    as [[ckpt|e] fs'']; cbn;
    [destruct (cuda_initialized w) eqn:Hi; cbn; rewrite ?Hi; cbn |];
    repeat split; try done; unfold count; cbn; lia.
Qed.



(** X16. A removal does not resolve the marker.  When the path ends in
    [.ckpt] and only the directory it resolves to exists, removing the path
    removes nothing: the directory is still there. *)
Theorem remove_checkpoint_keeps_resolved_directory
    (path : _PATH) (d : PurePath) (w : World) :
  wf_PATH path →
  suffix (as_Path path) = ".ckpt" →
  ckpt_to_dir path = OK d →
  fsspec.exists_ (files w) (as_Path path) = false →
  let o := run dc (remove_checkpoint self path) w in
  d ≠ as_Path path
  ∧ returned o = OK tt
  ∧ world o = w
  ∧ count is_rm (trace o) = 0%nat.
Proof.
  intros Hwf Hm Hd Hex. cbn zeta. split.
  - destruct (ckpt_to_dir_OK _ _ Hwf Hd) as (init & Hp & _ & [[Hne _]|[_ ->]]);
      [done |].
    apply (with_last_neq _ _ _ _ Hp). rewrite stem_base. intros Hb.
    rewrite suffix_ext in Hm. pose proof (base_ext (name (as_Path path))) as Hn.
    rewrite Hb, Hm in Hn. apply (f_equal Str.len) in Hn.
    rewrite StrFacts.len_app in Hn. change (Str.len ".ckpt") with 5 in Hn. lia.
  - unfold remove_checkpoint. cbn. rewrite Hex. done.
Qed.

(** X17. Without an initialised accelerator runtime the device fix-up
    raises [AssertionError] for every payload; it has asked whether the
    runtime is available to say so, and nothing else. *)
Theorem fix_tensors_device_needs_runtime (ckpt : value) (w : World) :
  cuda_initialized w = false →
  let o := run dc (_fix_tensors_device ckpt) w in
  returned o
    = Error (AssertionError ("(" +:+ py_bool (cuda_available w) +:+ ", False)"))
  ∧ world o = w
  ∧ trace o = [cuda_is_initialized; cuda_is_available; cuda_is_initialized].
Proof.
  intros Hinit. unfold _fix_tensors_device. cbn. rewrite Hinit. cbn.
  rewrite Hinit. cbn. done.
Qed.

(** X18. In what the device fix-up returns, no tensor that is a leaf of the
    nesting of dictionaries and lists is left on another accelerator
    device, and fixing it again returns it as it is.  (Tensors inside any
    other object, a tuple for one, are not leaves of that nesting and are
    not looked at.) *)
Theorem fix_tensors_device_settles (ckpt : value) (w : World) :
  cuda_initialized w = true →
  let cur_dev := cuda_device (current_device w) in
  ∃ fixed,
    returned (run dc (_fix_tensors_device ckpt) w) = OK fixed
    ∧ tensors_all (well_placed cur_dev) fixed = true
    ∧ returned (run dc (_fix_tensors_device fixed) w) = OK fixed
    ∧ relocated cur_dev ckpt fixed.
Proof.
  intros Hinit cur_dev.
  exists (dict_list_map_outplace (_fix_device cur_dev) ckpt).
  unfold _fix_tensors_device. cbn. rewrite Hinit. cbn.
  split; [done |]. split; [apply fix_device_places |].
  split; [|apply fix_device_relocated].
  f_equal. apply fix_device_well_placed, fix_device_places.
Qed.

End store_more.

(** ** [TrainerContext] *)

Section trainer_context.

(** X19. [from_trainer] succeeds exactly when the trainer and its
    [lightning_module] both have [__io__].  The trainer is looked at first,
    so a trainer without [__io__] gets the trainer's message whatever its
    module is.  On success the context holds the trainer itself, its
    [lightning_module] as the model, and the extras of
    [construct_extra]. *)
Theorem from_trainer_contract (IOProtocol : string) (t : Trainer) :
  (hasattr (trainer_obj t) "__io__" = false →
     from_trainer IOProtocol t
     = Error (ValueError ("Trainer must be an instance of " +:+ IOProtocol
                          +:+ ". Please use the Trainer from nemo.")))
  ∧ (hasattr (trainer_obj t) "__io__" = true →
     hasattr (lightning_module t) "__io__" = false →
     from_trainer IOProtocol t
     = Error (ValueError "LightningModule must extend IOMixin."))
  ∧ ((∃ ctx, from_trainer IOProtocol t = OK ctx) ↔
     hasattr (trainer_obj t) "__io__" = true
     ∧ hasattr (lightning_module t) "__io__" = true)
  ∧ (∀ ctx, from_trainer IOProtocol t = OK ctx →
       trainer ctx = t ∧ model ctx = lightning_module t
       ∧ extra ctx = construct_extra t).
Proof.
  unfold from_trainer.
  destruct (hasattr (trainer_obj t) "__io__");
    destruct (hasattr (lightning_module t) "__io__"); cbn.
  - split; [done |]. split; [done |]. split; [split; [done | by eauto] |].
    by intros ctx [= <-].
  - split; [done |]. split; [done |]. split; [|done].
    split; [by intros [? ?] | by intros [_ ?]].
  - split; [done |]. split; [done |]. split; [|done].
    split; [by intros [? ?] | by intros [? _]].
  - split; [done |]. split; [done |]. split; [|done].
    split; [by intros [? ?] | by intros [? _]].
Qed.

(** X20. The extras hold nothing but a ["datamodule"] entry, and hold it
    exactly when the trainer has a [datamodule] that has [__io__]; the
    entry is that [__io__].  A trainer without a [datamodule], or with one
    that has no [__io__] (such as [None]), gives empty extras. *)
Theorem construct_extra_datamodule (t : Trainer) :
  (∀ k v, construct_extra t !! k = Some v →
     k = "datamodule"
     ∧ ∃ dm, getattr (trainer_obj t) "datamodule" = Some dm
          ∧ getattr dm "__io__" = Some v)
  ∧ (∀ dm io, getattr (trainer_obj t) "datamodule" = Some dm →
       getattr dm "__io__" = Some io →
       construct_extra t = {["datamodule" := io]})
  ∧ ((hasattr (trainer_obj t) "datamodule" = false
      ∨ getattr (trainer_obj t) "datamodule" = Some py_None) →
     construct_extra t = ∅).
Proof.
  unfold construct_extra, hasattr.
  destruct (getattr (trainer_obj t) "datamodule") as [dm|] eqn:Hdm; cbn.
  - destruct (getattr dm "__io__") as [io|] eqn:Hio.
    + split; [|split].
      * intros k v [[<- <-]|[_ H]]%lookup_insert_Some; [eauto |].
        by rewrite lookup_empty in H.
      * intros dm' io' [= <-]. rewrite Hio. by intros [= <-].
      * intros [?|[= ->]]; [done |]. done.
    + split; [|split].
      * intros k v. by rewrite lookup_empty.
      * intros dm' io' [= <-]. by rewrite Hio.
      * done.
  - split; [|split].
    + intros k v. by rewrite lookup_empty.
    + done.
    + done.
Qed.

End trainer_context.

(** ** More of the module at work *)

Section more_scenarios.
Import sample.

Lemma ckpt_to_dir_failures_witness :
  ckpt_to_dir (path_str "/")
  = Error (ValueError "PosixPath('/') has an empty name")
  ∧ ckpt_to_dir (path_str "run/..ckpt") = Error (ValueError "Invalid name '.'")
  ∧ ∃ d, ckpt_to_dir (path_str "run/step10.ckpt") = OK d.
Proof.
  split; [|split].
  - destruct (ckpt_to_dir_failures (path_str "/") I) as (H & _).
    apply H. vm_compute. reflexivity.
  - destruct (ckpt_to_dir_failures (path_str "run/..ckpt") I) as (_ & H & _).
    apply H. vm_compute. reflexivity.
  - destruct (ckpt_to_dir_failures (path_str "run/step10.ckpt") I)
      as (_ & _ & H & _).
    apply H; vm_compute; [reflexivity | discriminate].
Defined.

Lemma ckpt_to_dir_strips_one_marker_witness :
  ckpt_to_dir (path_str "run/step10.ckpt.ckpt") = OK (Path "run/step10.ckpt")
  ∧ str (Path "run/step10.ckpt") +:+ ".ckpt" = "run/step10.ckpt.ckpt".
Proof.
  assert (ckpt_to_dir (path_str "run/step10.ckpt.ckpt")
          = OK (Path "run/step10.ckpt")) as Hd by (vm_compute; reflexivity).
  split; [exact Hd |].
  destruct (ckpt_to_dir_strips_one_marker (path_str "run/step10.ckpt.ckpt")
              (Path "run/step10.ckpt") I) as [H _];
    [vm_compute; reflexivity | exact Hd | exact H].
Defined.

Lemma ckpt_to_dir_stays_in_place_witness :
  ckpt_to_dir (path_str "/ckpts/step10.ckpt") = OK (Path "/ckpts/step10")
  ∧ _root (Path "/ckpts/step10") = "/"
  ∧ removelast (_parts (Path "/ckpts/step10")) = ["/"; "ckpts"].
Proof.
  assert (ckpt_to_dir (path_str "/ckpts/step10.ckpt")
          = OK (Path "/ckpts/step10")) as Hd by (vm_compute; reflexivity).
  split; [exact Hd |].
  destruct (ckpt_to_dir_stays_in_place (path_str "/ckpts/step10.ckpt")
              (Path "/ckpts/step10") I Hd) as (_ & _ & Hr & Hp & _).
  split; [exact Hr | exact Hp].
Defined.

Lemma ckpt_to_dir_idempotent_iff_witness :
  ckpt_to_dir (path_obj (Path "step10")) = OK (Path "step10")
  ∧ ckpt_to_dir (path_obj (Path "step10.ckpt")) ≠ OK (Path "step10.ckpt").
Proof.
  split.
  - apply (ckpt_to_dir_idempotent_iff (path_str "step10.ckpt") (Path "step10") I).
    + vm_compute. reflexivity.
    + vm_compute. discriminate.
  - intros H.
    apply (ckpt_to_dir_idempotent_iff (path_str "step10.ckpt.ckpt")
             (Path "step10.ckpt") I) in H.
    + apply H. vm_compute. reflexivity.
    + vm_compute. reflexivity.
Defined.

Lemma is_distributed_ckpt_only_looks_witness :
  let bad := {|
    dc_check_is_distributed_checkpoint _ _ := Error (BackendError "broken metadata");
    dc_save := dc_save backend;
    dc_load := dc_load backend |} in
  let w := on_device (complete "step10") 0 in
  returned (run bad (is_distributed_ckpt (path_str "step10.ckpt")) w)
  = Error (BackendError "broken metadata")
  ∧ dc_check_is_distributed_checkpoint bad (files w) (Path "step10")
    = Error (BackendError "broken metadata").
Proof.
  intros bad w. split; [vm_compute; reflexivity |].
  destruct (is_distributed_ckpt_only_looks bad (path_str "step10.ckpt") w)
    as (_ & _ & H).
  destruct (H (BackendError "broken metadata")) as [H'|(d & Hd & _ & He)].
  - vm_compute. reflexivity.
  - vm_compute in H'. discriminate.
  - vm_compute in Hd. injection Hd as <-. exact He.
Defined.

Lemma save_checkpoint_follows_oracle_witness :
  let w := on_device (complete "step10") 0 in
  returned (run backend (is_distributed_ckpt (path_str "step10.ckpt")) w) = OK true
  ∧ returned (run backend
      (save_checkpoint io payload (path_str "step10.ckpt") (@None unit)) w)
    = OK tt
  ∧ returned (run backend
      (save_checkpoint io payload (path_str "/") (@None unit)) w)
    = Error (ValueError "PosixPath('/') has an empty name").
Proof.
  intros w.
  assert (returned (run backend (is_distributed_ckpt (path_str "step10.ckpt")) w)
          = OK true) as Hq by (vm_compute; reflexivity).
  split; [exact Hq |]. split.
  - destruct (save_checkpoint_follows_oracle backend io unit payload
                (path_str "step10.ckpt") w) as (H & _).
    destruct (H Hq) as (H1 & _). exact H1.
  - destruct (save_checkpoint_follows_oracle backend io unit payload
                (path_str "/") w) as (_ & H & _).
    destruct (H (ValueError "PosixPath('/') has an empty name")) as (H1 & _);
      [vm_compute; reflexivity | exact H1].
Defined.

Lemma save_checkpoint_ensures_directory_witness :
  ∃ fs',
    fsspec.makedirs (files empty) (Path "/ckpts/step10") true = OK fs'
    ∧ fsspec.isdir fs' (Path "/ckpts/step10") = true
    ∧ returned (run backend
        (save_checkpoint io payload (path_str "/ckpts/step10.ckpt") (@None unit))
        empty) = OK tt.
Proof.
  destruct (save_checkpoint_ensures_directory backend io unit payload
              (path_str "/ckpts/step10.ckpt") (Path "/ckpts/step10") empty)
    as (fs' & Hmk & Hdir & _ & Hrun).
  - vm_compute. reflexivity.
  - vm_compute. reflexivity.
  - vm_compute. discriminate.
  - intros a _. vm_compute. discriminate.
  - exists fs'. split; [exact Hmk |]. split; [exact Hdir |].
    rewrite Hrun. reflexivity.
Defined.

Lemma save_checkpoint_onto_file_witness :
  let w := on_device (plain_file "step10") 0 in
  let o := run backend
    (save_checkpoint io payload (path_str "step10.ckpt") (@None unit)) w in
  returned o = Error (FileExistsError "step10")
  ∧ world o = w.
Proof.
  intros w o.
  destruct (save_checkpoint_onto_file backend io unit payload
              (path_str "step10.ckpt") (Path "step10") w) as (H1 & H2 & _);
    [vm_compute; reflexivity .. |].
  split; [exact H1 | exact H2].
Defined.

Lemma save_checkpoint_delegates_once_witness :
  let o := run backend
    (save_checkpoint io payload (path_str "step10.ckpt") (@None unit)) empty in
  dist_checkpointing_save payload "step10" ("torch_dist", 1) ∈ trace o
  ∧ ∃ d, ckpt_to_dir (path_str "step10.ckpt") = OK d
       ∧ dist_checkpointing_save payload "step10" ("torch_dist", 1)
         = dist_checkpointing_save payload (str d) (save_sharded_strategy io).
Proof.
  intros o.
  assert (dist_checkpointing_save payload "step10" ("torch_dist", 1) ∈ trace o)
    as Hin.
  { apply elem_of_cons. right. apply elem_of_cons. right.
    apply elem_of_cons. left. reflexivity. }
  split; [exact Hin |].
  destruct (save_checkpoint_delegates_once backend io unit payload
              (path_str "step10.ckpt") None empty) as (_ & _ & _ & _ & H).
  exact (H _ Hin eq_refl).
Defined.

Lemma load_checkpoint_returns_placed_witness :
  let w := on_device (complete "step10") 0 in
  returned (run backend
    (load_checkpoint io (path_str "step10") (Some payload) (@None unit)) w)
  = OK (dict_list_map_outplace (_fix_device (cuda_device 0)) payload).
Proof.
  intros w.
  assert (bool_decide (files w !! child (Path "step10") "metadata.json" = Some File)
          = true) as Hmeta by (vm_compute; reflexivity).
  destruct (load_checkpoint_returns_placed backend io unit (path_str "step10")
              (Some payload) w payload (files w)) as (H & _).
  - vm_compute. reflexivity.
  - change (dc_load backend (Some payload) (str_PATH (path_str "step10")) (files w))
      with (if bool_decide
                 (files w !! child (Path "step10") "metadata.json" = Some File)
            then OK (default (VDict []) (Some payload))
            else Error (BackendError "not a distributed checkpoint"), files w).
    rewrite Hmeta. reflexivity.
  - reflexivity.
  - exact H.
Defined.

Lemma load_checkpoint_backend_error_witness :
  let w := on_device (<[Path "step10" := Dir]> ∅) 0 in
  returned (run backend
    (load_checkpoint io (path_str "step10") None (@None unit)) w)
  = Error (BackendError "not a distributed checkpoint").
Proof.
  intros w.
  assert (bool_decide (files w !! child (Path "step10") "metadata.json" = Some File)
          = false) as Hmeta by (vm_compute; reflexivity).
  destruct (load_checkpoint_backend_error backend io unit (path_str "step10")
              None w (BackendError "not a distributed checkpoint") (files w))
    as (H & _).
  - vm_compute. reflexivity.
  - change (dc_load backend None (str_PATH (path_str "step10")) (files w))
      with (if bool_decide
                 (files w !! child (Path "step10") "metadata.json" = Some File)
            then OK (default (VDict []) None)
            else Error (BackendError "not a distributed checkpoint"), files w).
    rewrite Hmeta. reflexivity.
  - exact H.
Defined.

Lemma load_checkpoint_uninitialised_witness :
  let w := mkWorld (complete "step10") false true 0 (Path "/work") in
  returned (run backend
    (load_checkpoint io (path_str "step10") (Some payload) (@None unit)) w)
  = Error (AssertionError "(True, False)").
Proof.
  intros w.
  assert (bool_decide (files w !! child (Path "step10") "metadata.json" = Some File)
          = true) as Hmeta by (vm_compute; reflexivity).
  destruct (load_checkpoint_uninitialised backend io unit (path_str "step10")
              (Some payload) w payload (files w)) as (H & _).
  - vm_compute. reflexivity.
  - change (dc_load backend (Some payload) (str_PATH (path_str "step10")) (files w))
      with (if bool_decide
                 (files w !! child (Path "step10") "metadata.json" = Some File)
            then OK (default (VDict []) (Some payload))
            else Error (BackendError "not a distributed checkpoint"), files w).
    rewrite Hmeta. reflexivity.
  - reflexivity.
  - exact H.
Defined.

Lemma load_checkpoint_only_reads_witness :
  let w := on_device (plain_file "step10") 0 in
  world (run backend
    (load_checkpoint io (path_str "step10") None (@None unit)) w) = w.
Proof.
  intros w.
  destruct (load_checkpoint_only_reads backend io unit (path_str "step10")
              None None w) as (_ & _ & _ & _ & H).
  apply H. vm_compute. reflexivity.
Defined.



Lemma remove_checkpoint_keeps_resolved_directory_witness :
  let w := on_device (complete "step10") 0 in
  let o := run backend (remove_checkpoint io (path_str "step10.ckpt")) w in
  returned o = OK tt
  ∧ fsspec.isdir (files (world o)) (Path "step10") = true.
Proof.
  intros w o.
  destruct (remove_checkpoint_keeps_resolved_directory backend io
              (path_str "step10.ckpt") (Path "step10") w I)
    as (_ & H1 & H2 & _); [vm_compute; reflexivity .. |].
  split; [exact H1 |]. unfold o. rewrite H2. vm_compute. reflexivity.
Defined.

Lemma fix_tensors_device_needs_runtime_witness :
  returned (run backend (_fix_tensors_device payload) (mkWorld ∅ false false 0 (Path "/work")))
  = Error (AssertionError "(False, False)").
Proof.
  destruct (fix_tensors_device_needs_runtime backend payload
              (mkWorld ∅ false false 0 (Path "/work")) eq_refl) as (H & _).
  exact H.
Defined.

Lemma fix_tensors_device_settles_witness :
  ∃ fixed,
    returned (run backend (_fix_tensors_device payload) (on_device ∅ 1)) = OK fixed
    ∧ returned (run backend (_fix_tensors_device fixed) (on_device ∅ 1)) = OK fixed.
Proof.
  destruct (fix_tensors_device_settles backend payload (on_device ∅ 1) eq_refl)
    as (fixed & H1 & _ & H3 & _).
  exists fixed. split; [exact H1 | exact H3].
Defined.

Lemma from_trainer_contract_witness :
  let io_obj := Object [("target", py_None)] in
  let module := Object [("__io__", io_obj)] in
  let good := mkTrainer (Object [("__io__", io_obj)]) module in
  let bare := mkTrainer (Object []) module in
  (∃ ctx, from_trainer "IOProtocol" good = OK ctx)
  ∧ from_trainer "IOProtocol" bare
    = Error (ValueError
        "Trainer must be an instance of IOProtocol. Please use the Trainer from nemo.")
  ∧ from_trainer "IOProtocol" (mkTrainer (Object [("__io__", io_obj)]) py_None)
    = Error (ValueError "LightningModule must extend IOMixin.").
Proof.
  intros io_obj module good bare. split; [|split].
  - apply (from_trainer_contract "IOProtocol" good). split; reflexivity.
  - destruct (from_trainer_contract "IOProtocol" bare) as (H & _).
    apply H. reflexivity.
  - destruct (from_trainer_contract "IOProtocol"
                (mkTrainer (Object [("__io__", io_obj)]) py_None))
      as (_ & H & _).
    apply H; reflexivity.
Defined.

Lemma construct_extra_datamodule_witness :
  let io_obj := Object [("target", py_None)] in
  let dm := Object [("__io__", io_obj)] in
  construct_extra (mkTrainer (Object [("datamodule", dm)]) py_None)
  = {["datamodule" := io_obj]}
  ∧ construct_extra (mkTrainer (Object [("datamodule", py_None)]) py_None) = ∅.
Proof.
  intros io_obj dm. split.
  - destruct (construct_extra_datamodule
                (mkTrainer (Object [("datamodule", dm)]) py_None)) as (_ & H & _).
    apply (H dm io_obj); reflexivity.
  - destruct (construct_extra_datamodule
                (mkTrainer (Object [("datamodule", py_None)]) py_None))
      as (_ & _ & H).
    apply H. right. reflexivity.
Defined.

End more_scenarios.
